(** * superw: tax estimate, wallet ledger and refund workflow

    A shallow embedding of the request handlers of [server/routes.ts]
    (POST /api/tax-refund/estimate, POST /api/payments/send,
    POST /api/payments/deposit, POST /api/tax-refund/:id/process) and of
    the storage methods of [server/storage.ts] they rely on, over the
    tables of [shared/schema.ts], together with the properties the
    specification states about them.  What the handlers rely on Postgres
    for (the arithmetic of the numeric columns, the order of the rows of
    a SELECT without ORDER BY, the users table) is a parameter of the
    embedding, a [Postgres.Database]; the constraints of the tables are
    part of the embedding.  Part III covers the code around the
    handlers: the authentication middleware, the submit form and the
    status page of the tax refunds, the wallet page, what the payment
    handlers leave in the store, and the locale table of
    [shared/locales.ts].

    JavaScript numbers are IEEE 754 binary64 values; they are embedded as
    Rocq's primitive floats, whose operations are the same binary64
    operations.  Definitions come first, theorems afterwards. *)

From Stdlib Require Import Floats ZArith List String Bool Lia Permutation.
From Stdlib Require DecimalString Uint63.
Import ListNotations.

Set Warnings "-inexact-float".
Set Implicit Arguments.

(* ================================================================== *)
(** * Part I.  The embedding                                           *)
(* ================================================================== *)

(** ** JavaScript numbers and the builtins the handlers call *)

Module Js.
Local Open Scope float_scope.

(** ToBoolean on a number: [+0], [-0] and [NaN] are falsy. *)
Definition truthy_number (x : float) : bool :=
  negb (is_nan x || is_zero x).

(** [x || 0] on a number [x]. *)
Definition or_zero (x : float) : float :=
  if truthy_number x then x else 0.

(** [Math.max(a, b)]: [NaN] if either argument is [NaN]; [+0] is
    larger than [-0]. *)
Definition Math_max (a b : float) : float :=
  if is_nan a || is_nan b then nan
  else if a <? b then b
  else if b <? a then a
  else if get_sign a then b else a.

Definition Math_min (a b : float) : float :=
  if is_nan a || is_nan b then nan
  else if a <? b then a
  else if b <? a then b
  else if get_sign a then a else b.

(** Every binary64 value of magnitude at least [2^52] is integral. *)
Definition two52 : float := 4503599627370496.

(** [Math.floor].  Below [2^52], adding and subtracting [2^52] rounds
    the magnitude to an integer (to nearest, ties to even); the result
    is then moved to the integer below. *)
Definition Math_floor (x : float) : float :=
  if is_nan x || is_infinity x || (two52 <=? abs x) || is_zero x then x
  else
    let r := (abs x + two52) - two52 in
    if 0 <? x then (if x <? r then r - 1 else r)
    else (if r <? abs x then - (r + 1) else - r).

(** [Math.round]: the nearest integer, ties towards [+infinity];
    [NaN], the infinities and integers are returned unchanged, and
    values in [[-0.5, 0)] give [-0]. *)
Definition Math_round (x : float) : float :=
  let f := Math_floor x in
  if is_nan x || is_infinity x || (f =? x) then x
  else if (x <? 0) && (-0.5 <=? x) then -0
  else if 0.5 <=? x - f then f + 1 else f.

(** ToBoolean and strict equality on a string-valued field that may be
    absent ([undefined]). *)
Definition truthy_string (s : option string) : bool :=
  match s with
  | Some s => negb (String.eqb s "")
  | None => false
  end.

Definition strict_eq (s : option string) (lit : string) : bool :=
  match s with
  | Some s => String.eqb s lit
  | None => false
  end.
End Js.

(** A binary64 number, as [SpecFloat] reads it, is below zero: a
    negative infinity or a negative finite number. *)
Definition negative (x : spec_float) : bool :=
  match x with
  | S754_infinity s | S754_finite s _ _ => s
  | _ => false
  end.

(** A value of a request body that the handlers use as a number.  The
    handlers observe such a value only through [!v] and
    [parseFloat(v)]; [parseFloat] yields [NaN] for anything that does not
    start with a number. *)
Class JsValue (V : Type) : Type := {
  truthy : V -> bool;
  parseFloat : V -> float
}.

(** Fields that are absent or hold a JSON number.  [parseFloat] converts
    its argument to a string first, which turns [-0] into ["0"]. *)
Inductive JsonField : Type :=
| Absent
| Num (n : float).

#[export] Instance JsonField_value : JsValue JsonField := {
  truthy v := match v with Absent => false | Num n => Js.truthy_number n end;
  parseFloat v :=
    match v with
    | Absent => nan
    | Num n => if is_zero n then 0%float else n
    end
}.

(** The outcome of a request: the HTTP status and the JSON body. *)
Record Response (B : Type) : Type := Res { http_status : Z; body : B }.

(** ** The tax estimate (routes.ts, POST /api/tax-refund/estimate) *)

Module Tax.
Local Open Scope float_scope.

Record TaxBreakdown : Type := {
  taxableIncome : float;
  calculatedTax : float;
  (** the number that [toFixed(2)] formats *)
  effectiveRate : float
}.

Record Estimate : Type := {
  estimatedAmount : float;
  processingTime : string;
  eligibilityScore : float;
  requiredDocuments : list string;
  taxBreakdown : TaxBreakdown
}.

(** The bracket chain of the handler. *)
Definition taxRate (income : float) : float :=
  if income <=? 12000000 then 0.06
  else if income <=? 46000000 then 0.15
  else if income <=? 88000000 then 0.24
  else if income <=? 150000000 then 0.35
  else 0.38.

Definition eligibility (income deduct : float) (refundType : option string)
  : float :=
  let score := 85 in
  let score := if 100000000 <? income then score - 10 else score in
  let score := if income * 0.3 <? deduct then score - 5 else score in
  let score := if Js.strict_eq refundType "income_tax" then score + 5 else score in
  Js.Math_min 100 (Js.Math_max 0 score).

Section Handler.
Context {V : Type} `{JsValue V}.

(** The body of the handler's [try] block, up to the object it
    sends. *)
Definition estimate (grossIncome taxPaid deductions : V)
    (refundType : option string) : Estimate :=
  let income := Js.or_zero (parseFloat grossIncome) in
  let paid := Js.or_zero (parseFloat taxPaid) in
  let deduct := Js.or_zero (parseFloat deductions) in
  let taxRate := taxRate income in
  let taxableIncome := Js.Math_max 0 (income - deduct) in
  let calculatedTax := taxableIncome * taxRate in
  let estimatedAmount := Js.Math_max 0 (paid - calculatedTax) in
    {| estimatedAmount := Js.Math_round estimatedAmount;
       processingTime :=
         if 5000000 <? estimatedAmount then "5-7일"%string else "3-5일"%string;
       eligibilityScore := eligibility income deduct refundType;
       requiredDocuments :=
         [ "근로소득원천징수영수증"; "소득공제증명서"; "은행통장 사본" ]%string;
       taxBreakdown :=
         {| taxableIncome := taxableIncome;
            calculatedTax := calculatedTax;
            effectiveRate := calculatedTax / income * 100 |} |}.
End Handler.

(** The bracket table of section 4.1 of the specification, read as a
    relation between the gross income and the rate. *)
Definition bracket_rate (income rate : float) : Prop :=
  ((income <=? 12000000) = true /\ rate = 0.06) \/
  ((12000000 <? income) = true /\ (income <=? 46000000) = true /\ rate = 0.15) \/
  ((46000000 <? income) = true /\ (income <=? 88000000) = true /\ rate = 0.24) \/
  ((88000000 <? income) = true /\ (income <=? 150000000) = true /\ rate = 0.35) \/
  ((150000000 <? income) = true /\ rate = 0.38).
End Tax.

(** ** shared/schema.ts

    The text of [shared/schema.ts] is in [src/shared/locales.ts], behind
    that of [shared/locales.ts].  The rows below are those of its
    tables; a column the handlers may find empty is an [option]. *)

Module Schema.
(** A row of [walletBalances], which the handlers reach through SQL
    text.  They never read the [id] column, which is left out.
    [balance] is numeric(18,8): the row holds the number that
    [parseFloat] reads from the stored decimal. *)
Record WalletBalance : Type := {
  address : string;
  balance : float;
  asset_type : string;
  updated_at : Z
}.

(** A row of [taxRefunds].  The numeric columns hold the text that
    Postgres returns for them. *)
Record TaxRefund : Type := {
  refundId : Z;
  refundUserId : Z;
  passportNumber : string;
  purchaseAmount : string;
  taxAmount : string;
  refundAmount : string;
  merchantName : string;
  receiptHash : string;
  receiptImage : option string;
  kwanAmount : option string;
  blockchainTxHash : option string;
  refundStatus : string;
  processedAt : option Z;
  refundCreatedAt : option Z
}.

Section Transactions.
Variable V : Type.

(** An amount as a handler passes it on: the string
    [amount.toString()], or the value of the request body as it
    came. *)
Inductive Amount : Type :=
| AsString (v : V)
| AsSent (v : V).

(** The object a handler hands to [insertTransactionSchema.parse]: the
    keys of the insert schema that the object may carry ([parse] drops
    every other key). *)
Record TransactionObject : Type := {
  given_userId : Z;
  given_fromAddress : option string;
  given_toAddress : option string;
  given_assetType : option string;
  given_amount : Amount;
  given_fee : option Amount;
  given_txHash : option string;
  given_blockNumber : option Z;
  given_status : option string;
  given_transactionType : option string;
  given_merchantInfo : option V
}.

(** What [insertTransactionSchema.parse] returns:
    [createInsertSchema(transactions)] without [id], [createdAt] and
    [confirmedAt].  The columns that are [notNull()] and have no default
    are required; the others may be left out. *)
Record InsertTransaction : Type := {
  new_userId : Z;
  new_fromAddress : string;
  new_toAddress : string;
  new_assetType : string;
  new_amount : Amount;
  new_fee : option Amount;
  new_txHash : string;
  new_blockNumber : option Z;
  new_status : option string;
  new_transactionType : string;
  new_merchantInfo : option V
}.

(** A row of [transactions].  [amount] and [fee] are numeric(18,8) and
    hold the text that Postgres returns for them. *)
Record Transaction : Type := {
  id : Z;
  userId : Z;
  fromAddress : string;
  toAddress : string;
  assetType : string;
  amount : string;
  fee : option string;
  txHash : string;
  blockNumber : option Z;
  status : string;
  transactionType : string;
  merchantInfo : option V;
  createdAt : option Z;
  confirmedAt : option Z
}.
End Transactions.

Arguments AsString {V} v.
Arguments AsSent {V} v.
End Schema.

(** ** The database

    What the handlers rely on Postgres for.  The constraints of the
    tables are those of [shared/schema.ts]; the arithmetic of the
    numeric columns, the order of the rows of a SELECT that has no ORDER
    BY and the users table, which these handlers do not write, are given
    by a [Database]. *)

Module Postgres.
Import Schema.
Local Open Scope float_scope.
Local Unset Implicit Arguments.

(** The 32-bit integers of the [serial] and [integer] columns. *)
Definition int4 (z : Z) : bool :=
  ((-2147483648 <=? z) && (z <=? 2147483647))%Z.

(** The numbers a numeric(18,8) column accepts: [NaN], and every number
    of magnitude below [10^10].  (The largest binary64 number below
    [10^10] is 9999999999.999998, which has ten digits before the point
    after rounding to eight decimals; the infinities are refused.) *)
Definition holds (x : float) : bool :=
  is_nan x || (abs x <? 10000000000).

Record Database (V : Type) : Type := {
  (** The number that [parseFloat] reads from a numeric(18,8) column
      into which the text [x.toString()] of a number [x] of magnitude
      below [10^10] was written: [x] rounded to eight decimals. *)
  round_8 : float -> float;
  round_8_sign :
    forall x, (abs x <? 10000000000) = true -> (x <? 0) = false ->
              (round_8 x <? 0) = false;
  round_8_range :
    forall x, (abs x <? 10000000000) = true ->
              (abs (round_8 x) <? 10000000000) = true;
  round_8_zero : round_8 0 = 0;
  (** The text Postgres returns for a numeric(18,8) column into which
      an amount was written; [None] when it raises an error (the amount
      is not the text of a number, or the number is too large). *)
  numeric_text : Amount V -> option string;
  (** The users table has a row with this id, a 32-bit integer. *)
  has_user : Z -> bool;
  has_user_int4 : forall u, has_user u = true -> int4 u = true;
  (** The order in which the rows that a SELECT without ORDER BY
      matches come back. *)
  scan : forall A : Type, list A -> list A;
  scan_permutation :
    forall (A : Type) (rows : list A), Permutation (scan A rows) rows
}.

Arguments round_8 {V} d x.
Arguments round_8_sign {V} d x.
Arguments round_8_range {V} d x.
Arguments round_8_zero {V} d.
Arguments numeric_text {V} d a.
Arguments has_user {V} d u.
Arguments has_user_int4 {V} d u.
Arguments scan {V} d {A} rows.
Arguments scan_permutation {V} d {A} rows.

(** Writing the text of a number into a numeric(18,8) column: the
    number read back, or [None] when Postgres raises "numeric field
    overflow". *)
Definition numeric_18_8 {V : Type} (db : Database V) (x : float)
    : option float :=
  if is_nan x then Some nan
  else if abs x <? 10000000000 then Some (round_8 db x)
  else None.
End Postgres.

(** ** server/storage.ts *)

Module Storage.
Import Schema Postgres.
Local Open Scope string_scope.

Section Store.
Context {V : Type}.
Variable db : Database V.

(** [createTransaction]: one INSERT with RETURNING.  [serial] is the
    value the sequence of the [id] column hands out and [now] the value
    of [defaultNow()].  Postgres raises an error ([None]) when [user_id]
    has no row in [users], when [tx_hash] is already in the table, when
    a numeric column does not take its value or when [block_number] is
    not a 32-bit integer; [status] and [fee] have defaults. *)
Definition createTransaction (serial now : Z)
    (transactionData : InsertTransaction V) (table : list (Transaction V))
    : option (Transaction V * list (Transaction V)) :=
  let fee_text :=
    match new_fee transactionData with
    | Some f => numeric_text db f
    | None => Some "0.00000000"
    end in
  let block_fits :=
    match new_blockNumber transactionData with
    | Some n => int4 n
    | None => true
    end in
  if negb (has_user db (new_userId transactionData)) then None
  else if existsb (fun t => String.eqb (txHash t) (new_txHash transactionData))
            table
  then None
  else if negb block_fits then None
  else
    match numeric_text db (new_amount transactionData), fee_text with
    | Some amount_text, Some fee_text =>
        let row :=
          {| id := serial;
             userId := new_userId transactionData;
             fromAddress := new_fromAddress transactionData;
             toAddress := new_toAddress transactionData;
             assetType := new_assetType transactionData;
             amount := amount_text;
             fee := Some fee_text;
             txHash := new_txHash transactionData;
             blockNumber := new_blockNumber transactionData;
             status :=
               match new_status transactionData with
               | Some s => s
               | None => "pending"
               end;
             transactionType := new_transactionType transactionData;
             merchantInfo := new_merchantInfo transactionData;
             createdAt := Some now;
             confirmedAt := None |} in
        Some (row, (table ++ [row])%list)
    | _, _ => None
    end.

(** [getTransactionsByUserId]: SELECT with a WHERE clause on the user
    and no ORDER BY; Postgres raises an error for a user id that is not
    a 32-bit integer. *)
Definition getTransactionsByUserId (user : Z) (table : list (Transaction V))
    : option (list (Transaction V)) :=
  if int4 user
  then Some (scan db (filter (fun t => Z.eqb (userId t) user) table))
  else None.

(** [getTaxRefundsByUserId]: the same SELECT on [taxRefunds]. *)
Definition getTaxRefundsByUserId (user : Z) (table : list TaxRefund)
    : option (list TaxRefund) :=
  if int4 user
  then Some (scan db (filter (fun r => Z.eqb (refundUserId r) user) table))
  else None.
End Store.

(** What the UPDATE of [processTaxRefund] sets in a row. *)
Definition decided (now : Z) (status : string) (r : TaxRefund) : TaxRefund :=
  {| refundId := refundId r; refundUserId := refundUserId r;
     passportNumber := passportNumber r;
     purchaseAmount := purchaseAmount r; taxAmount := taxAmount r;
     refundAmount := refundAmount r; merchantName := merchantName r;
     receiptHash := receiptHash r; receiptImage := receiptImage r;
     kwanAmount := kwanAmount r; blockchainTxHash := blockchainTxHash r;
     refundStatus := status;
     processedAt := Some now;
     refundCreatedAt := refundCreatedAt r |}.

(** [processTaxRefund]: UPDATE ... SET status, processedAt WHERE id
    RETURNING.  [refundId] is a JavaScript number, [None] for [NaN];
    Postgres raises an error (the outer [None]) when it is not a 32-bit
    integer.  Otherwise the method resolves with the first returned row,
    or with [undefined] (the inner [None]) when no row matched. *)
Definition processTaxRefund (now : Z) (id : option Z) (action : string)
    (table : list TaxRefund)
    : option (option TaxRefund * list TaxRefund) :=
  let status := if String.eqb action "approve" then "approved" else "rejected" in
  match id with
  | Some id =>
      if int4 id then
        let table' :=
          map (fun r => if Z.eqb (refundId r) id then decided now status r
                        else r) table in
        Some (hd_error
                (map (decided now status)
                   (filter (fun r => Z.eqb (refundId r) id) table)),
              table')
      else None
  | None => None
  end.
End Storage.

(** ** server/routes.ts: the authentication middleware *)

Module Auth.
Import Ascii.
Local Open Scope string_scope.

(** [s.split(' ')]: the pieces of [s] between its spaces; a string without
    a space is its own single piece. *)
Fixpoint split_space (s : string) : list string :=
  match s with
  | EmptyString => [EmptyString]
  | String c rest =>
      if Ascii.eqb c " "%char
      then EmptyString :: split_space rest
      else match split_space rest with
           | piece :: pieces => String c piece :: pieces
           | [] => [String c EmptyString]
           end
  end.

(** What the handlers find in [req.user]: the object the middleware sets
    for the open paths has [id] and [userId]; the payload of a token
    signed at login has [userId] and [email]. *)
Record AuthUser : Type := {
  auth_id : option Z;
  auth_userId : option Z;
  auth_email : option string
}.

(** [{ id: 1, userId: 1 }] *)
Definition testUser : AuthUser :=
  {| auth_id := Some 1%Z; auth_userId := Some 1%Z; auth_email := None |}.

Inductive Outcome : Type :=
| Next (user : AuthUser)
| Rejected (answer : Response string).

(** The paths the middleware lets through without a token. *)
Definition open_path (path : string) : bool :=
  String.eqb path "/api/payments/send"
  || String.eqb path "/api/payments/deposit"
  || String.prefix "/api/contracts/" path.

Section Middleware.
(** [jwt.verify(token, JWT_SECRET, callback)]: the decoded payload, or
    [None] when the callback gets an error. *)
Variable jwt_verify : string -> option AuthUser.

(** [authHeader && authHeader.split(' ')[1]], with [None] for a value
    that is [undefined]. *)
Definition header_token (authorization : option string) : option string :=
  match authorization with
  | None => None
  | Some header =>
      if String.eqb header "" then Some header
      else nth_error (split_space header) 1
  end.

Definition authenticateToken (path : string) (authorization : option string)
    : Outcome :=
  if open_path path then Next testUser
  else
    let token := header_token authorization in
    if negb (Js.truthy_string token)
    then Rejected (Res 401 "Access token required")
    else
      match token with
      | Some token =>
          match jwt_verify token with
          | None => Rejected (Res 403 "Invalid token")
          | Some user => Next user
          end
      | None => Rejected (Res 401 "Access token required")
      end.
End Middleware.

(** A string has no space in it. *)
Fixpoint no_space (s : string) : bool :=
  match s with
  | EmptyString => true
  | String c rest => negb (Ascii.eqb c " "%char) && no_space rest
  end.

(** A verifier that knows one token, ["abc"], signed for user 7. *)
Definition sample_user : AuthUser :=
  {| auth_id := None; auth_userId := Some 7%Z; auth_email := Some "a@b.c" |}.

Definition sample_verify (token : string) : option AuthUser :=
  if String.eqb token "abc" then Some sample_user else None.
End Auth.

(** ** server/routes.ts: the payment handlers *)

Module Routes.
Import Schema Postgres.

(** The address both payment handlers hard-code. *)
Definition walletAddress : string :=
  "0xb8c1f75bb7550bb51039c64e92c78d15ad9dbbe1".

(** The steps of the balance-mutation path, in the words of the
    specification; each store access and the sufficiency test leaves
    one of them in the world's log. *)
Inductive Step : Type :=
| ReadBalance
| ValidateSufficiency
| WriteBalance (newBalance : float)
| RecordTransaction.

(** What a handler gets from its surroundings: the authenticated user,
    the 64 hex digits drawn from [Math.random], the clock, and the
    value that the sequence of [transactions.id] hands out. *)
Record Env : Type := {
  user : Z;
  randomHex : string;
  now : Z;
  serial : Z
}.

(** The exceptions the payment handlers meet.  The [catch] of the send
    handler passes the message of the one it caught on in its answer;
    the text of a message is the library's. *)
Inductive Error : Type :=
| ZodError           (* thrown by [insertTransactionSchema.parse] *)
| InsertError        (* the INSERT of [createTransaction] was refused *)
| NumericOverflow.   (* a numeric(18,8) column refused a balance *)

Section Handlers.
Context {V : Type} `{JsValue V}.

Variable db : Database V.

(** [insertTransactionSchema.parse]: it returns the parsed object or
    throws. *)
Variable insertTransactionSchema :
  TransactionObject V -> option (InsertTransaction V).

Record World : Type := {
  wallet_balances : list WalletBalance;
  transactions : list (Transaction V);
  steps : list Step
}.

(** *** Handler code: state passing with exceptions *)

Inductive Result (A : Type) : Type :=
| Value (a : A)
| Thrown (error : Error).
Arguments Thrown {A} error.

Definition M (A : Type) : Type := World -> Result A * World.

Definition ret {A} (a : A) : M A := fun w => (Value a, w).

Definition throw {A} (error : Error) : M A := fun w => (Thrown error, w).

Definition bind {A B} (m : M A) (k : A -> M B) : M B :=
  fun w =>
    match m w with
    | (Value a, w') => k a w'
    | (Thrown e, w') => (Thrown e, w')
    end.

(** [try { m } catch (error) { h error }]: what [m] did to the store
    before it threw stays done. *)
Definition try_catch {A} (m : M A) (h : Error -> M A) : M A :=
  fun w =>
    match m w with
    | (Value a, w') => (Value a, w')
    | (Thrown e, w') => h e w'
    end.

Notation "x <- m ;; k" := (bind m (fun x => k))
  (at level 61, m at next level, right associativity).
Notation "m ;;; k" := (bind m (fun _ => k))
  (at level 61, right associativity).

Definition step (s : Step) : M unit :=
  fun w =>
    (Value tt,
     {| wallet_balances := wallet_balances w;
        transactions := transactions w;
        steps := steps w ++ [s] |}).

Definition is_address (a : string) (r : WalletBalance) : bool :=
  String.eqb (address r) a.

(** SELECT balance FROM wallet_balances WHERE address = $1 *)
Definition select_balance (a : string) : M (list WalletBalance) :=
  step ReadBalance ;;;
  fun w => (Value (filter (is_address a) (wallet_balances w)), w).

(** What the UPDATE below does to one row. *)
Definition set_balance (clock : Z) (stored : float) (a : string)
    (r : WalletBalance) : WalletBalance :=
  if is_address a r
  then {| address := address r; balance := stored;
          asset_type := asset_type r; updated_at := clock |}
  else r.

(** UPDATE wallet_balances SET balance = $1, updated_at = NOW()
    WHERE address = $2, with [$1] the text [newBalance.toString()] *)
Definition update_balance (clock : Z) (newBalance : float) (a : string)
    : M unit :=
  step (WriteBalance newBalance) ;;;
  fun w =>
    match numeric_18_8 db newBalance with
    | Some stored =>
        (Value tt,
         {| wallet_balances :=
              map (set_balance clock stored a) (wallet_balances w);
            transactions := transactions w;
            steps := steps w |})
    | None => (Thrown NumericOverflow, w)
    end.

(** INSERT INTO wallet_balances (address, balance, asset_type)
    VALUES ($1, $2, $3), with [$2] the text [newBalance.toString()] *)
Definition insert_balance (clock : Z) (a : string) (newBalance : float)
    (asset : string) : M unit :=
  step (WriteBalance newBalance) ;;;
  fun w =>
    match numeric_18_8 db newBalance with
    | Some stored =>
        (Value tt,
         {| wallet_balances :=
              wallet_balances w ++
              [{| address := a; balance := stored;
                  asset_type := asset; updated_at := clock |}]%list;
            transactions := transactions w;
            steps := steps w |})
    | None => (Thrown NumericOverflow, w)
    end.

Definition parse (data : TransactionObject V) : M (InsertTransaction V) :=
  match insertTransactionSchema data with
  | Some parsed => ret parsed
  | None => throw ZodError
  end.

(** [storage.createTransaction] *)
Definition createTransaction (env : Env) (data : InsertTransaction V)
    : M (Transaction V) :=
  step RecordTransaction ;;;
  fun w =>
    match Storage.createTransaction db (serial env) (now env) data
            (transactions w) with
    | Some (row, table) =>
        (Value row,
         {| wallet_balances := wallet_balances w;
            transactions := table;
            steps := steps w |})
    | None => (Thrown InsertError, w)
    end.

(** *** Response bodies *)

Inductive Body : Type :=
| Message (message : string)
| Insufficient (message : string) (currentBalance : float)
    (requestedAmount : V)
| Completed (transaction : Transaction V) (hash : string)
    (previousBalance newBalance : float) (message : string)
| Created (transaction : Transaction V)
| Failed (message : string) (error : Error).

(** *** POST /api/tax-refund/estimate *)

Definition estimate_handler (grossIncome taxPaid deductions : V)
    (refundType : option string) : M (Response (Tax.Estimate + string)) :=
  try_catch
    (ret (Res 200 (inl (Tax.estimate grossIncome taxPaid deductions refundType))))
    (fun _ => ret (Res 500 (inr "Failed to calculate estimate"%string))).

(** *** POST /api/payments/send *)

(** The request body: the three fields the handler reads, and the other
    keys of the insert schema, which the branch of the other assets
    passes on with [...req.body]. *)
Record SendRequest : Type := {
  send_toAddress : option string;
  send_amount : V;
  send_assetType : option string;
  send_fromAddress : option string;
  send_fee : option V;
  send_txHash : option string;
  send_blockNumber : option Z;
  send_transactionType : option string;
  send_merchantInfo : option V
}.

(** The balance the send handler works with. *)
Definition send_currentBalance (rows : list WalletBalance) : float :=
  match rows with
  | r :: _ => balance r
  | [] => 1.0%float (* Default to 1.0 XP if no record exists *)
  end.

(** The test that opens the send handler. *)
Definition send_incomplete (req : SendRequest) : bool :=
  negb (Js.truthy_string (send_toAddress req))
  || negb (truthy (send_amount req))
  || negb (Js.truthy_string (send_assetType req)).

(** The object the XP branch hands to the schema. *)
Definition send_transactionData (env : Env) (req : SendRequest)
    : TransactionObject V :=
  {| given_userId := user env;
     given_fromAddress := Some walletAddress;
     given_toAddress := send_toAddress req;
     given_assetType := send_assetType req;
     given_amount := AsString (send_amount req);
     given_fee := None;
     given_txHash := Some ("0x" ++ randomHex env)%string;
     given_blockNumber := None;
     given_status := Some "completed"%string;
     given_transactionType := Some "send"%string;
     given_merchantInfo := None |}.

(** The object the branch of the other assets hands to the schema:
    [{ ...req.body, userId, status: 'pending' }]. *)
Definition send_otherData (env : Env) (req : SendRequest)
    : TransactionObject V :=
  {| given_userId := user env;
     given_fromAddress := send_fromAddress req;
     given_toAddress := send_toAddress req;
     given_assetType := send_assetType req;
     given_amount := AsSent (send_amount req);
     given_fee := option_map AsSent (send_fee req);
     given_txHash := send_txHash req;
     given_blockNumber := send_blockNumber req;
     given_status := Some "pending"%string;
     given_transactionType := send_transactionType req;
     given_merchantInfo := send_merchantInfo req |}.

Definition send_body (env : Env) (req : SendRequest) : M (Response Body) :=
  let toAddress := send_toAddress req in
  let amount := send_amount req in
  let assetType := send_assetType req in
  if negb (Js.truthy_string toAddress) || negb (truthy amount)
     || negb (Js.truthy_string assetType)
  then ret (Res 400 (Message "Missing required transaction parameters"))
  else if (parseFloat amount <=? 0)%float
  then ret (Res 400 (Message "Invalid transaction amount"))
  else if Js.strict_eq assetType "XP" then
    let fromAddress := walletAddress in
    rows <- select_balance fromAddress ;;
    let currentBalance := send_currentBalance rows in
    step ValidateSufficiency ;;;
    if (currentBalance <? parseFloat amount)%float
    then ret (Res 400 (Insufficient "Insufficient balance for withdrawal"
                         currentBalance amount))
    else
      let hash := ("0x" ++ randomHex env)%string in
      transactionData <- parse (send_transactionData env req) ;;
      transaction <- createTransaction env transactionData ;;
      let newBalance := (currentBalance - parseFloat amount)%float in
      update_balance (now env) newBalance fromAddress ;;;
      ret (Res 200 (Completed transaction hash currentBalance newBalance
                      "Withdrawal completed successfully - balance updated"))
  else
    transactionData <- parse (send_otherData env req) ;;
    transaction <- createTransaction env transactionData ;;
    ret (Res 200 (Created transaction)).

Definition send (env : Env) (req : SendRequest) : M (Response Body) :=
  try_catch (send_body env req)
    (fun error => ret (Res 400 (Failed "Payment failed" error))).

(** *** POST /api/payments/deposit *)

Record DepositRequest : Type := {
  deposit_amount : V;
  deposit_assetType : option string
}.

(** The balance the deposit handler works with. *)
Definition deposit_currentBalance (rows : list WalletBalance) : float :=
  match rows with
  | r :: _ => balance r
  | [] => 0.0%float
  end.

(** The test that opens the deposit handler. *)
Definition deposit_rejected (req : DepositRequest) : bool :=
  negb (truthy (deposit_amount req))
  || (parseFloat (deposit_amount req) <=? 0)%float.

Definition deposit_assetTypeOrDefault (req : DepositRequest) : string :=
  match deposit_assetType req with Some a => a | None => "XP"%string end.

(** The object the deposit handler hands to the schema. *)
Definition deposit_transactionData (env : Env) (req : DepositRequest)
    : TransactionObject V :=
  {| given_userId := user env;
     given_fromAddress := Some "external"%string;
     given_toAddress := Some walletAddress;
     given_assetType := Some (deposit_assetTypeOrDefault req);
     given_amount := AsString (deposit_amount req);
     given_fee := None;
     given_txHash := Some ("0x" ++ randomHex env)%string;
     given_blockNumber := None;
     given_status := Some "completed"%string;
     given_transactionType := Some "receive"%string;
     given_merchantInfo := None |}.

Definition deposit_body (env : Env) (req : DepositRequest)
    : M (Response Body) :=
  let amount := deposit_amount req in
  let assetType := deposit_assetTypeOrDefault req in
  let fromAddress := walletAddress in
  if negb (truthy amount) || (parseFloat amount <=? 0)%float
  then ret (Res 400 (Message "Invalid deposit amount"))
  else
    rows <- select_balance fromAddress ;;
    let currentBalance := deposit_currentBalance rows in
    let newBalance := (currentBalance + parseFloat amount)%float in
    match rows with
    | _ :: _ => update_balance (now env) newBalance fromAddress
    | [] => insert_balance (now env) fromAddress newBalance assetType
    end ;;;
    let hash := ("0x" ++ randomHex env)%string in
    transactionData <- parse (deposit_transactionData env req) ;;
    transaction <- createTransaction env transactionData ;;
    ret (Res 200 (Completed transaction hash currentBalance newBalance
                    "Deposit completed successfully")).

Definition deposit (env : Env) (req : DepositRequest) : M (Response Body) :=
  try_catch (deposit_body env req)
    (fun _ => ret (Res 500 (Message "Failed to process deposit"))).

(** *** Requests applied one at a time *)

Inductive Request : Type :=
| SendReq (env : Env) (req : SendRequest)
| DepositReq (env : Env) (req : DepositRequest).

Definition handle (r : Request) : M (Response Body) :=
  match r with
  | SendReq env req => send env req
  | DepositReq env req => deposit env req
  end.

(** The response of a handler, whose [try]/[catch] answers every
    exception. *)
Definition response_of (r : Request) (w : World) : Response Body :=
  match fst (handle r w) with
  | Value resp => resp
  | Thrown e => Res 500 (Failed "unhandled" e)
  end.

Fixpoint run (rs : list Request) (w : World) : list (Response Body) * World :=
  match rs with
  | [] => ([], w)
  | r :: rs' =>
      let (resps, w') := run rs' (snd (handle r w)) in
      (response_of r w :: resps, w')
  end.

(** *** Reading the ledger *)

(** The rows of the wallet address. *)
Definition wallet_rows (w : World) : list WalletBalance :=
  filter (is_address walletAddress) (wallet_balances w).

(** The stored balance: that of the first row, as both handlers read
    it; [None] when the address has no row. *)
Definition stored_balance (w : World) : option float :=
  match wallet_rows w with
  | r :: _ => Some (balance r)
  | [] => None
  end.

(** The signed change a request asks for. *)
Inductive Delta : Type :=
| Credit (a : float)
| Debit (a : float).

Definition apply_delta (b : float) (d : Delta) : float :=
  match d with
  | Credit a => (b + a)%float
  | Debit a => (b - a)%float
  end.

(** The balance the column holds once a delta was applied to the
    balance [b] and written. *)
Definition stored_delta (b : float) (d : Delta) : float :=
  match numeric_18_8 db (apply_delta b d) with
  | Some stored => stored
  | None => b
  end.

Definition after_delta (b : float) (d : option Delta) : float :=
  match d with
  | Some d => stored_delta b d
  | None => b
  end.

(** The delta of a request that was answered with success: a
    completed withdrawal debits its amount, a completed deposit
    credits it; any other answer applies nothing. *)
Definition applied_delta (r : Request) (resp : Response Body)
    : option Delta :=
  match body resp with
  | Completed _ _ _ _ _ =>
      if Z.eqb (http_status resp) 200 then
        Some match r with
             | SendReq _ req => Debit (parseFloat (send_amount req))
             | DepositReq _ req => Credit (parseFloat (deposit_amount req))
             end
      else None
  | _ => None
  end.

Fixpoint applied_deltas (rs : list Request) (resps : list (Response Body))
    : list Delta :=
  match rs, resps with
  | r :: rs', resp :: resps' =>
      match applied_delta r resp with
      | Some d => d :: applied_deltas rs' resps'
      | None => applied_deltas rs' resps'
      end
  | _, _ => []
  end.

(** A balance that is not below zero. *)
Definition not_negative (b : float) : Prop := (b <? 0)%float = false.

Definition balances_not_negative (w : World) : Prop :=
  Forall (fun r => not_negative (balance r)) (wallet_rows w).

(** A balance that is a number from 0 up to [10^10]. *)
Definition in_range (b : float) : Prop :=
  not_negative b /\ (abs b <? 10000000000)%float = true.

Definition balances_in_range (w : World) : Prop :=
  Forall (fun r => in_range (balance r)) (wallet_rows w).

(** A balance that the column can hold; every balance that was read
    from the column is one. *)
Definition balances_held (w : World) : Prop :=
  Forall (fun r => holds (balance r) = true) (wallet_rows w).

(** The log of a world, with some steps more. *)
Definition logged (w : World) (more : list Step) : World :=
  {| wallet_balances := wallet_balances w;
     transactions := transactions w;
     steps := steps w ++ more |}.

(** The rows of the table once a deposit wrote [stored]: the UPDATE when
    the wallet has a row, the INSERT when it has none. *)
Definition credited (env : Env) (req : DepositRequest) (w : World)
    (stored : float) : list WalletBalance :=
  match wallet_rows w with
  | _ :: _ =>
      map (set_balance (now env) stored walletAddress) (wallet_balances w)
  | [] =>
      (wallet_balances w ++
       [{| address := walletAddress; balance := stored;
           asset_type := deposit_assetTypeOrDefault req;
           updated_at := now env |}])%list
  end.

(** The amount of a request is a number. *)
Definition amount_is_number (r : Request) : Prop :=
  match r with
  | SendReq _ req => is_nan (parseFloat (send_amount req)) = false
  | DepositReq _ req => is_nan (parseFloat (deposit_amount req)) = false
  end.
End Handlers.

Arguments World V : clear implicits.
Arguments Build_World {V} wallet_balances transactions steps.
Arguments M V A : clear implicits.
Arguments Body V : clear implicits.
Arguments SendRequest V : clear implicits.
Arguments DepositRequest V : clear implicits.
Arguments Request V : clear implicits.

(** *** POST /api/tax-refund/:id/process

    The route is registered behind [authenticateToken], and its path
    is not one of the open ones.  The handler passes
    [parseInt(req.params.id)] and [req.body.action] to the storage
    method and sends what it resolves with; its [catch] answers an
    exception of the store with 400. *)

Inductive ProcessBody : Type :=
| Processed (taxRefund : option TaxRefund)
| Refused (message : string).

Definition process_handler (clock : Z) (refundId : option Z)
    (action : string) (table : list TaxRefund)
    : Response ProcessBody * list TaxRefund :=
  match Storage.processTaxRefund clock refundId action table with
  | Some (taxRefund, table') => (Res 200 (Processed taxRefund), table')
  | None => (Res 400 (Refused "Failed to process tax refund"), table)
  end.

(** The route: [passed] is what the middleware made of the request. *)
Definition process_route (passed : Auth.Outcome) (clock : Z)
    (refundId : option Z) (action : string) (table : list TaxRefund)
    : Response ProcessBody * list TaxRefund :=
  match passed with
  | Auth.Rejected answer =>
      (Res (http_status answer) (Refused (body answer)), table)
  | Auth.Next _ => process_handler clock refundId action table
  end.

(** *** Sample data *)

(** The schema on the objects of the samples, whose fields, where
    present, have the type their column asks for: it asks for the six
    required fields, and for a string as the amount, which a JSON number
    that came as it was sent is not. *)
Definition sample_schema (data : TransactionObject JsonField)
    : option (InsertTransaction JsonField) :=
  match given_fromAddress data, given_toAddress data, given_assetType data,
        given_txHash data, given_transactionType data, given_amount data with
  | Some from, Some to, Some asset, Some hash, Some type, AsString a =>
      Some {| new_userId := given_userId data;
              new_fromAddress := from;
              new_toAddress := to;
              new_assetType := asset;
              new_amount := AsString a;
              new_fee := given_fee data;
              new_txHash := hash;
              new_blockNumber := given_blockNumber data;
              new_status := given_status data;
              new_transactionType := type;
              new_merchantInfo := given_merchantInfo data |}
  | _, _, _, _, _, _ => None
  end.


Definition empty_world {V : Type} : World V :=
  {| wallet_balances := []; transactions := []; steps := [] |}.

(** The wallet row holding [b] XP, alone in the store. *)
Definition world_with_balance {V : Type} (b : float) : World V :=
  {| wallet_balances :=
       [{| address := walletAddress; balance := b;
           asset_type := "XP"; updated_at := 0 |}];
     transactions := [];
     steps := [] |}.

(** The surroundings of the [n]-th request of a sample: user 1, a hash
    that ends in the digits of [n], the clock at [n] seconds and the
    id [n]. *)
Definition sample_env_at (n : nat) : Env :=
  {| user := 1;
     randomHex :=
       ("3f9a0c1d5e7b2a4486c0d9e1f2a3b4c5d6e7f8091a2b3c4d5e6f708192a3b4"
        ++ (if Nat.ltb n 10 then "0" else "")
        ++ DecimalString.NilEmpty.string_of_uint (Nat.to_uint n))%string;
     now := 1700000000 + Z.of_nat n;
     serial := Z.of_nat n |}.

Definition sample_env : Env := sample_env_at 1.

Definition send_xp (a : float) : SendRequest JsonField :=
  {| send_toAddress := Some "0xfeed"%string;
     send_amount := Num a;
     send_assetType := Some "XP"%string;
     send_fromAddress := None; send_fee := None; send_txHash := None;
     send_blockNumber := None; send_transactionType := None;
     send_merchantInfo := None |}.

Definition deposit_xp (a : float) : DepositRequest JsonField :=
  {| deposit_amount := Num a; deposit_assetType := None |}.

(** The ordering the specification asks of a listing: every
    transaction is at least as recent as the ones listed after it (a
    row without a time is not compared). *)
Definition not_after {V : Type} (t' t : Transaction V) : Prop :=
  match createdAt t', createdAt t with
  | Some a, Some b => (a <= b)%Z
  | _, _ => True
  end.

Fixpoint most_recent_first {V : Type} (l : list (Transaction V)) : Prop :=
  match l with
  | [] => True
  | t :: rest =>
      Forall (fun t' => not_after t' t) rest /\ most_recent_first rest
  end.

Definition pending_refund (refund : Z) : TaxRefund :=
  {| refundId := refund; refundUserId := 1;
     passportNumber := "M12345678";
     purchaseAmount := "110000.00"; taxAmount := "10000.00";
     refundAmount := "10000.00"; merchantName := "Seoul Duty Free";
     receiptHash := "0x5ec1"; receiptImage := None; kwanAmount := None;
     blockchainTxHash := None; refundStatus := "pending";
     processedAt := None; refundCreatedAt := Some 1700000000%Z |}.
End Routes.

(** ** A sample database

    A [Database] on JSON numbers, for the samples of Part II.  The
    numeric columns round the exact value of the number written to
    eight decimals, half away from zero, which is what Postgres makes of
    the text of the number unless that text is a tie at the ninth
    decimal that the number itself misses. *)

Module SampleDatabase.
Import Schema Postgres.
Local Open Scope Z_scope.

(** The exact value of [x] in units of [10^-8], rounded half away from
    zero. *)
Definition units_8 (x : float) : Z :=
  match Prim2SF x with
  | S754_finite s m e =>
      let scaled := Zpos m * 100000000 in
      let magnitude :=
        if 0 <=? e then scaled * 2 ^ e
        else (2 * scaled + 2 ^ (- e)) / 2 ^ (1 - e) in
      if s then - magnitude else magnitude
  | _ => 0
  end.

(** The binary64 number nearest to [u * 10^-8], for the magnitudes below
    [2^53] units, where the division is the only rounding. *)
Definition of_units (u : Z) : float :=
  let magnitude :=
    (PrimFloat.of_uint63 (Uint63.of_Z (Z.abs u)) / 100000000)%float in
  if u <? 0 then (- magnitude)%float else magnitude.

(** [round_8]: the two tests restate the range and the sign of the
    rounded number, so that the laws of a [Database] hold by the
    definition. *)
Definition sample_round_8 (x : float) : float :=
  let r := of_units (units_8 x) in
  if ((abs r <? 10000000000) && (negb (r <? 0) || (x <? 0)))%float
  then r else x.

Definition digits (n : Z) : string :=
  DecimalString.NilZero.string_of_uint (N.to_uint (Z.to_N n)).

(** The text of [u * 10^-8] with eight decimals. *)
Definition text_of_units (u : Z) : string :=
  let whole := Z.abs u / 100000000 in
  let part := Z.abs u mod 100000000 in
  ((if (u <? 0)%Z then "-" else "")
   ++ digits whole ++ "."
   ++ match digits (100000000 + part) with
      | String _ decimals => decimals
      | EmptyString => EmptyString
      end)%string.

Definition sample_numeric_text (a : Amount JsonField) : option string :=
  match a with
  | AsString (Num n) | AsSent (Num n) =>
      if is_nan n then Some "NaN"%string
      else if (abs n <? 10000000000)%float
      then Some (text_of_units (units_8 n))
      else None
  | _ => None
  end.

(** The users table holds user 1; a SELECT returns its rows in the
    order of the table, as a sequential scan of a table that has only
    seen INSERTs does. *)
Definition sample_db : Database JsonField.
Proof.
  refine {| round_8 := sample_round_8;
            numeric_text := sample_numeric_text;
            has_user := fun u => Z.eqb u 1;
            scan := fun A rows => rows |}.
  - intros x _ Hx. unfold sample_round_8.
    destruct (abs (of_units (units_8 x)) <? 10000000000)%float;
      [ | exact Hx].
    destruct (of_units (units_8 x) <? 0)%float eqn:E;
      [ | exact E]. rewrite Hx. exact Hx.
  - intros x Hx. unfold sample_round_8.
    destruct (abs (of_units (units_8 x)) <? 10000000000)%float eqn:E;
      [ | exact Hx].
    destruct (negb (of_units (units_8 x) <? 0) || (x <? 0))%float;
      [exact E | exact Hx].
  - vm_compute. reflexivity.
  - intros u Hu. apply Z.eqb_eq in Hu. now subst u.
  - intros A rows. apply Permutation_refl.
Defined.

(** The same database with a SELECT that returns the rows the other
    way round. *)
Definition reversing_db : Database JsonField :=
  {| round_8 := round_8 sample_db;
     round_8_sign := round_8_sign sample_db;
     round_8_range := round_8_range sample_db;
     round_8_zero := round_8_zero sample_db;
     numeric_text := sample_numeric_text;
     has_user := fun u => Z.eqb u 1;
     has_user_int4 := has_user_int4 sample_db;
     scan := fun A rows => rev rows;
     scan_permutation :=
       fun A rows => Permutation_sym (Permutation_rev rows) |}.
End SampleDatabase.

(** ** shared/locales.ts *)

Module Locales.
Local Open Scope string_scope.

Record LocaleConfig : Type := {
  code : string;
  name : string;
  nativeName : string;
  flag : string;
  country : string;
  countryCode : string;
  (** [rtl?: boolean]: [None] where the entry leaves it out *)
  rtl : option bool
}.

Definition supportedLocales : list LocaleConfig :=
  [ {| code := "ko"; name := "Korean"; nativeName := "한국어"; flag := "🇰🇷";
       country := "South Korea"; countryCode := "KR"; rtl := None |};
    {| code := "en"; name := "English"; nativeName := "English"; flag := "🇺🇸";
       country := "United States"; countryCode := "US"; rtl := None |};
    {| code := "ja"; name := "Japanese"; nativeName := "日本語"; flag := "🇯🇵";
       country := "Japan"; countryCode := "JP"; rtl := None |};
    {| code := "zh-CN"; name := "Chinese (Simplified)"; nativeName := "简体中文"; flag := "🇨🇳";
       country := "China"; countryCode := "CN"; rtl := None |};
    {| code := "zh-TW"; name := "Chinese (Traditional)"; nativeName := "繁體中文"; flag := "🇹🇼";
       country := "Taiwan"; countryCode := "TW"; rtl := None |};
    {| code := "es"; name := "Spanish"; nativeName := "Español"; flag := "🇪🇸";
       country := "Spain"; countryCode := "ES"; rtl := None |};
    {| code := "fr"; name := "French"; nativeName := "Français"; flag := "🇫🇷";
       country := "France"; countryCode := "FR"; rtl := None |};
    {| code := "de"; name := "German"; nativeName := "Deutsch"; flag := "🇩🇪";
       country := "Germany"; countryCode := "DE"; rtl := None |};
    {| code := "pt"; name := "Portuguese"; nativeName := "Português"; flag := "🇧🇷";
       country := "Brazil"; countryCode := "BR"; rtl := None |};
    {| code := "ru"; name := "Russian"; nativeName := "Русский"; flag := "🇷🇺";
       country := "Russia"; countryCode := "RU"; rtl := None |};
    {| code := "ar"; name := "Arabic"; nativeName := "العربية"; flag := "🇸🇦";
       country := "Saudi Arabia"; countryCode := "SA"; rtl := Some true |};
    {| code := "hi"; name := "Hindi"; nativeName := "हिन्दी"; flag := "🇮🇳";
       country := "India"; countryCode := "IN"; rtl := None |};
    {| code := "th"; name := "Thai"; nativeName := "ไทย"; flag := "🇹🇭";
       country := "Thailand"; countryCode := "TH"; rtl := None |};
    {| code := "vi"; name := "Vietnamese"; nativeName := "Tiếng Việt"; flag := "🇻🇳";
       country := "Vietnam"; countryCode := "VN"; rtl := None |};
    {| code := "id"; name := "Indonesian"; nativeName := "Bahasa Indonesia"; flag := "🇮🇩";
       country := "Indonesia"; countryCode := "ID"; rtl := None |};
    {| code := "ms"; name := "Malay"; nativeName := "Bahasa Melayu"; flag := "🇲🇾";
       country := "Malaysia"; countryCode := "MY"; rtl := None |};
    {| code := "tl"; name := "Filipino"; nativeName := "Filipino"; flag := "🇵🇭";
       country := "Philippines"; countryCode := "PH"; rtl := None |} ].

Definition defaultLocale : string := "ko".

Definition getLocaleByCode (c : string) : option LocaleConfig :=
  find (fun locale => String.eqb (code locale) c) supportedLocales.

Definition getLocaleByCountryCode (cc : string) : option LocaleConfig :=
  find (fun locale => String.eqb (countryCode locale) cc) supportedLocales.
End Locales.

(** ** The refund pages of server/routes.ts *)

Module Refunds.
Import Schema Postgres.
Local Open Scope string_scope.

(** *** GET /api/tax-refund/:id/status *)

Record ProcessingStep : Type := {
  step : string;
  completed : bool;
  timestamp : option Z
}.

Record StatusUpdate : Type := {
  refund : TaxRefund;
  lastUpdated : Z;
  processingSteps : list ProcessingStep
}.

(** [parsedId] is [parseInt(req.params.id)], [None] when that is [NaN];
    the rows have no [submittedAt], [reviewedAt] or [approvedAt], which
    read as [undefined]. *)
Definition status_handler {V : Type} (db : Database V) (clock : Z)
    (parsedId : option Z) (table : list TaxRefund)
    : Response (StatusUpdate + string) :=
  match Storage.getTaxRefundsByUserId db 1 table with
  | None => Res 500 (inr "Failed to get refund status")
  | Some refunds =>
      let found :=
        find (fun r => match parsedId with
                       | Some i => Z.eqb (refundId r) i
                       | None => false
                       end) refunds in
      match found with
      | None => Res 404 (inr "Tax refund not found")
      | Some r =>
          Res 200
            (inl {| refund := r;
                    lastUpdated := clock;
                    processingSteps :=
                      [ {| step := "submitted"; completed := true;
                           timestamp := None |};
                        {| step := "under_review";
                           completed :=
                             negb (String.eqb (refundStatus r) "pending");
                           timestamp := None |};
                        {| step := "approved";
                           completed :=
                             String.eqb (refundStatus r) "completed";
                           timestamp := None |};
                        {| step := "disbursed";
                           completed :=
                             String.eqb (refundStatus r) "completed";
                           timestamp := processedAt r |} ] |})
      end
  end.

(** The names of the steps of a status page, each with its mark. *)
Definition names_and_marks (update : StatusUpdate) : list (string * bool) :=
  map (fun s => (step s, completed s)) (processingSteps update).

(** The table after a call of [processTaxRefund]; an error of the store
    leaves it as it was. *)
Definition table_after
    (outcome : option (option TaxRefund * list TaxRefund))
    (table : list TaxRefund) : list TaxRefund :=
  match outcome with
  | Some (_, table') => table'
  | None => table
  end.

(** *** POST /api/tax-refund/submit, up to the object it hands to
    [storage.createTaxRefund] *)

Section Submit.
Context {V : Type} `{JsValue V}.

(** [parseInt] on the tax year, [None] for [NaN]. *)
Variable parseInt : V -> option Z.

Record SubmitRequest : Type := {
  submit_refundType : option string;
  submit_taxYear : V;
  submit_grossIncome : V;
  submit_taxPaid : V;
  submit_deductions : V;
  submit_bankAccount : option string
}.

Record RefundData : Type := {
  data_userId : Z;
  data_refundType : option string;
  data_taxYear : option Z;
  data_amount : float;
  data_status : string;
  data_grossIncome : float;
  data_taxPaid : float;
  data_deductions : float;
  data_bankAccount : option string;
  data_submittedAt : Z;
  data_estimatedProcessingTime : string
}.

Definition submit_refundData (clock : Z) (req : SubmitRequest)
    : Response string + RefundData :=
  let refundType := submit_refundType req in
  let bankAccount := submit_bankAccount req in
  if negb (Js.truthy_string refundType) || negb (truthy (submit_taxYear req))
     || negb (truthy (submit_grossIncome req))
     || negb (truthy (submit_taxPaid req))
     || negb (Js.truthy_string bankAccount)
  then inl (Res 400 "Required fields missing")
  else
    let income := parseFloat (submit_grossIncome req) in
    let paid := parseFloat (submit_taxPaid req) in
    let deduct := Js.or_zero (parseFloat (submit_deductions req)) in
    let taxRate := Tax.taxRate income in
    let taxableIncome := Js.Math_max 0 (income - deduct)%float in
    let calculatedTax := (taxableIncome * taxRate)%float in
    let refundAmount := Js.Math_max 0 (paid - calculatedTax)%float in
    inr {| data_userId := 1;
           data_refundType := refundType;
           data_taxYear := parseInt (submit_taxYear req);
           data_amount := refundAmount;
           data_status := "pending";
           data_grossIncome := income;
           data_taxPaid := paid;
           data_deductions := deduct;
           data_bankAccount := bankAccount;
           data_submittedAt := clock;
           data_estimatedProcessingTime := "3-5일" |}.
End Submit.

Arguments SubmitRequest V : clear implicits.

(** A field of the submitted form: a JSON field, or a text that does not
    start with a number, such as ["abc"]; such a text is truthy, and
    [parseFloat] turns it into [NaN]. *)
Inductive FormField : Type :=
| Json (v : JsonField)
| Letters.

#[export] Instance FormField_value : JsValue FormField := {
  truthy v := match v with Json v => truthy v | Letters => true end;
  parseFloat v := match v with Json v => parseFloat v | Letters => nan end
}.

(** [parseInt] on the fields of the sample form, whose tax year is
    2024. *)
Definition sample_parseInt (v : FormField) : option Z :=
  match v with
  | Json (Num _) => Some 2024%Z
  | _ => None
  end.

(** A complete form with the given gross income and tax paid and no
    deductions. *)
Definition sample_submit (income paid : FormField) : SubmitRequest FormField :=
  {| submit_refundType := Some "income_tax";
     submit_taxYear := Json (Num 2024);
     submit_grossIncome := income;
     submit_taxPaid := paid;
     submit_deductions := Json Absent;
     submit_bankAccount := Some "110-234-567890" |}.
End Refunds.

(** ** GET /api/wallet/transactions (server/routes.ts) *)

Module WalletView.
Import Schema Postgres.
Local Open Scope string_scope.

Section WalletTransactions.
Context {V : Type}.
Variable db : Database V.

(** [Math.random().toString(16).substring(2, 66)] behind ["0x"], drawn
    for a row whose hash is empty. *)
Variable randomHash : Transaction V -> string.

Record WalletTransaction : Type := {
  view_id : Z;
  view_type : string;
  view_amount : string;
  view_assetType : string;
  view_from : string;
  view_to : string;
  view_txHash : string;
  view_status : string;
  view_timestamp : option Z;
  view_gasFee : string
}.

(** [a || b] on strings. *)
Definition or_else (a b : string) : string :=
  if String.eqb a "" then b else a.

Definition walletTransaction (tx : Transaction V) : WalletTransaction :=
  {| view_id := id tx;
     view_type := or_else (transactionType tx) "send";
     view_amount := amount tx;
     view_assetType := assetType tx;
     view_from := fromAddress tx;
     view_to := toAddress tx;
     view_txHash := or_else (txHash tx) (randomHash tx);
     view_status :=
       if String.eqb (status tx) "completed" then "confirmed" else status tx;
     view_timestamp := createdAt tx;
     view_gasFee := "0.001" |}.

Definition wallet_transactions (table : list (Transaction V))
    : Response (list WalletTransaction + string) :=
  match Storage.getTransactionsByUserId db 1 table with
  | Some transactions => Res 200 (inl (map walletTransaction transactions))
  | None => Res 500 (inr "Failed to get wallet transactions")
  end.
End WalletTransactions.

End WalletView.

(** ** What the payment handlers leave in the store *)

Module Ledger.
Import Schema Routes.

(** The transaction a response carries: the one the handler recorded. *)
Definition recorded {V : Type} (resp : Response (Body V))
    : list (Transaction V) :=
  match body resp with
  | Completed tx _ _ _ _ => [tx]
  | Created tx => [tx]
  | _ => []
  end.

(** The rows of the other addresses. *)
Definition other_rows {V : Type} (w : World V) : list WalletBalance :=
  filter (fun r => negb (is_address walletAddress r)) (wallet_balances w).

(** The requests that are sends. *)
Definition is_send {V : Type} (r : Request V) : Prop :=
  match r with
  | SendReq _ _ => True
  | DepositReq _ _ => False
  end.

(** The balance a response reports as the current one. *)
Definition reported_balance {V : Type} (resp : Response (Body V))
    : option float :=
  match body resp with
  | Insufficient _ current _ => Some current
  | Completed _ _ previous _ _ => Some previous
  | _ => None
  end.

(** A response reports no current balance other than the default
    1.0 of the send handler. *)
Definition reports_default {V : Type} (resp : Response (Body V)) : Prop :=
  match reported_balance resp with
  | Some current => current = 1%float
  | None => True
  end.
End Ledger.

(* ================================================================== *)
(** * Part II.  Properties                                             *)
(* ================================================================== *)

Unset Implicit Arguments.

(** ** Binary64 arithmetic

    The primitive operations are specified by the functions of
    [SpecFloat]; the facts below are read off that specification. *)

Module FloatFacts.
Local Open Scope Z_scope.

Lemma SFltb_zero x : SFltb x (S754_zero false) = negative x.
Proof. destruct x as [s|s| |s m e]; try destruct s; reflexivity. Qed.

Lemma SFleb_zero_false x :
  SFleb x (S754_zero false) = false ->
  x = S754_nan \/ x = S754_infinity false \/
  exists m e, x = S754_finite false m e.
Proof.
  destruct x as [s|s| |s m e]; try destruct s; simpl; try discriminate; eauto.
Qed.

Lemma binary_round_aux_sign sx m e l :
  negative (binary_round_aux prec emax sx m e l) = true -> sx = true.
Proof.
  unfold binary_round_aux.
  destruct (shr_fexp prec emax m e l) as [mrs e'].
  destruct (shr_fexp prec emax _ e' loc_Exact) as [mrs' e''].
  destruct (shr_m mrs'); [ | destruct (_ <=? _) | ]; simpl; auto; discriminate.
Qed.

Lemma binary_normalize_sign m e :
  0 <= m -> negative (binary_normalize prec emax m e false) = false.
Proof.
  intros Hm. destruct m as [|p|p]; simpl; [reflexivity | | lia].
  unfold binary_round.
  destruct (shl_align _ _ _) as [mz ez].
  destruct (negative _) eqn:E; [ | reflexivity].
  apply binary_round_aux_sign in E. discriminate.
Qed.

Lemma digits2_pos_bounds m :
  2 ^ (Zpos (digits2_pos m) - 1) <= Zpos m < 2 ^ Zpos (digits2_pos m).
Proof.
  induction m as [p IH|p IH|]; simpl digits2_pos.
  - rewrite Pos2Z.inj_succ.
    replace (Z.succ (Zpos (digits2_pos p)) - 1) with (Z.succ (Zpos (digits2_pos p) - 1)) by lia.
    rewrite !Z.pow_succ_r by lia. lia.
  - rewrite Pos2Z.inj_succ.
    replace (Z.succ (Zpos (digits2_pos p)) - 1) with (Z.succ (Zpos (digits2_pos p) - 1)) by lia.
    rewrite !Z.pow_succ_r by lia. lia.
  - simpl. lia.
Qed.

Lemma iter_xO_pow m d : Zpos (Pos.iter xO m d) = Zpos m * 2 ^ Zpos d.
Proof.
  revert m. induction d using Pos.peano_ind; intros m.
  - simpl. lia.
  - rewrite Pos.iter_succ, Pos2Z.inj_succ, Z.pow_succ_r by lia.
    rewrite Pos2Z.inj_xO, IHd. lia.
Qed.

Lemma shl_align_value m e e' :
  e' <= e -> Zpos (fst (shl_align m e e')) = Zpos m * 2 ^ (e - e').
Proof.
  intros Hle. unfold shl_align.
  destruct (e' - e) as [|p|p] eqn:E; cbn [fst].
  - replace (e - e') with 0 by lia. lia.
  - lia.
  - rewrite iter_xO_pow. replace (e - e') with (Zpos p) by lia. reflexivity.
Qed.

(** Of two canonical positive numbers, the one with the larger exponent
    is the larger. *)
Lemma canonical_exponent_order mx ex my ey :
  canonical_mantissa prec emax mx ex = true ->
  canonical_mantissa prec emax my ey = true ->
  ey < ex ->
  Zpos my < Zpos mx * 2 ^ (ex - ey).
Proof.
  unfold canonical_mantissa, fexp, emin. intros Hx Hy Hlt.
  apply Z.eqb_eq in Hx, Hy.
  pose proof (digits2_pos_bounds mx) as [Hmx _].
  pose proof (digits2_pos_bounds my) as [_ Hmy].
  assert (Hdx : Zpos (digits2_pos mx) = prec) by lia.
  assert (Hdy : Zpos (digits2_pos my) <= prec) by lia.
  rewrite Hdx in Hmx.
  assert (H2 : 2 ^ Zpos (digits2_pos my) <= 2 ^ prec)
    by (apply Z.pow_le_mono_r; lia).
  assert (H3 : 2 ^ 1 <= 2 ^ (ex - ey)) by (apply Z.pow_le_mono_r; lia).
  assert (H4 : 2 ^ prec = 2 ^ (prec - 1) * 2 ^ 1)
    by (rewrite <- Z.pow_add_r; [f_equal | | ]; unfold prec; lia).
  assert (0 < 2 ^ (prec - 1)) by (apply Z.pow_pos_nonneg; unfold prec; lia).
  nia.
Qed.

Lemma SFcompare_antisym x y :
  SFcompare y x = option_map CompOpp (SFcompare x y).
Proof.
  destruct x as [sx|sx| |sx mx ex], y as [sy|sy| |sy my ey];
    try destruct sx; try destruct sy; simpl; try reflexivity;
    rewrite (Z.compare_antisym ex ey); destruct (ex ?= ey); simpl;
    try reflexivity;
    repeat f_equal; symmetry; exact (Pos.compare_cont_antisym mx my Eq).
Qed.

(** *** Facts on binary64 numbers *)

Lemma is_nan_false a : is_nan a = false -> Prim2SF a <> S754_nan.
Proof.
  unfold is_nan. rewrite FloatAxioms.eqb_spec. intros Hn Ha. rewrite Ha in Hn.
  discriminate.
Qed.

Lemma ltb_zero a : (a <? 0)%float = negative (Prim2SF a).
Proof. rewrite ltb_spec. apply SFltb_zero. Qed.

Lemma leb_false_ltb x y :
  is_nan x = false -> is_nan y = false ->
  (x <=? y)%float = false -> (y <? x)%float = true.
Proof.
  intros Hx Hy. apply is_nan_false in Hx, Hy.
  rewrite leb_spec, ltb_spec. unfold SFleb, SFltb.
  rewrite (SFcompare_antisym (Prim2SF x) (Prim2SF y)).
  destruct (SFcompare (Prim2SF x) (Prim2SF y)) as [[ | | ]|] eqn:E;
    simpl; try discriminate; try reflexivity.
  destruct (Prim2SF x) as [s|s| |s m e], (Prim2SF y) as [s'|s'| |s' m' e'];
    simpl in E; congruence.
Qed.

Lemma ltb_irrefl a : (a <? a)%float = false.
Proof.
  rewrite ltb_spec. unfold SFltb.
  pose proof (SFcompare_antisym (Prim2SF a) (Prim2SF a)) as H.
  destruct (SFcompare (Prim2SF a) (Prim2SF a)) as [[ | | ]|];
    simpl in H; congruence.
Qed.

Lemma ltb_zero_leb a : (0 <? a)%float = true -> (a <=? 0)%float = false.
Proof.
  rewrite ltb_spec, leb_spec. change (Prim2SF 0) with (S754_zero false).
  destruct (Prim2SF a) as [s|s| |s m e]; try destruct s; simpl;
    try discriminate; reflexivity.
Qed.

Lemma add_not_negative a b :
  (a <? 0)%float = false -> (b <=? 0)%float = false ->
  (a + b <? 0)%float = false.
Proof.
  rewrite !ltb_zero, leb_spec, add_spec.
  change (Prim2SF 0) with (S754_zero false).
  intros Ha Hb. apply SFleb_zero_false in Hb.
  unfold SF64add.
  destruct Hb as [-> | [-> | (m & e & ->)]];
    destruct (Prim2SF a) as [s|s| |s ma ea]; simpl in Ha; subst;
    try reflexivity.
  cbn [SFadd cond_Zopp]. apply binary_normalize_sign. lia.
Qed.

Lemma sub_not_negative a b :
  (a <? 0)%float = false -> (b <=? 0)%float = false ->
  (a <? b)%float = false ->
  (a - b <? 0)%float = false.
Proof.
  rewrite !ltb_zero, leb_spec, sub_spec, ltb_spec.
  change (Prim2SF 0) with (S754_zero false).
  intros Ha Hb Hab. apply SFleb_zero_false in Hb.
  pose proof (Prim2SF_valid a) as Va. pose proof (Prim2SF_valid b) as Vb.
  unfold SF64sub.
  destruct Hb as [Hb | [Hb | (m & e & Hb)]]; rewrite Hb in *;
    destruct (Prim2SF a) as [s|s| |s ma ea]; simpl in Ha; subst;
    try reflexivity; try discriminate.
  cbn [SFsub cond_Zopp]. apply binary_normalize_sign.
  simpl in Va, Vb. unfold bounded in Va, Vb.
  apply andb_prop in Va, Vb. destruct Va as [Ca _], Vb as [Cb _].
  unfold SFltb in Hab. simpl in Hab.
  destruct (ea ?= e) eqn:E.
  - apply Z.compare_eq in E. subst e.
    rewrite Z.min_id, !shl_align_value, Z.sub_diag by lia.
    assert (Pos.compare ma m <> Lt).
    { unfold Pos.compare. destruct (Pos.compare_cont Eq ma m); congruence. }
    rewrite Pos.compare_nlt_iff in H. lia.
  - discriminate.
  - apply Z.compare_gt_iff in E.
    rewrite Z.min_r, !shl_align_value, Z.sub_diag by lia.
    pose proof (canonical_exponent_order ma ea m e Ca Cb E). lia.
Qed.

Lemma sub_diag b :
  (0 <? b)%float = true -> (b <? infinity)%float = true ->
  (b - b)%float = 0%float.
Proof.
  rewrite !ltb_spec. intros Hpos Hfin. apply Prim2SF_inj.
  rewrite sub_spec. unfold SF64sub.
  change (Prim2SF 0) with (S754_zero false) in *.
  change (Prim2SF infinity) with (S754_infinity false) in Hfin.
  destruct (Prim2SF b) as [s|s| |s m e]; try destruct s; try discriminate.
  cbn [SFsub cond_Zopp]. rewrite Z.sub_diag. reflexivity.
Qed.
End FloatFacts.

(** ** Rounding

    What the rounding of [SpecFloat] does to the value of a number. *)

Module RoundingFacts.
Import FloatFacts.
Local Open Scope Z_scope.

(** The number of binary digits grows with the number. *)
Lemma digits2_pos_le m1 m2 :
  Zpos m1 <= Zpos m2 -> Zpos (digits2_pos m1) <= Zpos (digits2_pos m2).
Proof.
  intros Hle.
  pose proof (digits2_pos_bounds m1) as [H1 _].
  pose proof (digits2_pos_bounds m2) as [_ H2].
  assert (H : 2 ^ (Zpos (digits2_pos m1) - 1) < 2 ^ Zpos (digits2_pos m2)) by lia.
  apply Z.pow_lt_mono_r_iff in H; lia.
Qed.

(** A number below a power of two has at most that many digits. *)
Lemma digits2_pos_below m k :
  0 <= k -> Zpos m < 2 ^ k -> Zpos (digits2_pos m) <= k.
Proof.
  intros Hk Hlt. pose proof (digits2_pos_bounds m) as [H1 _].
  assert (H : 2 ^ (Zpos (digits2_pos m) - 1) < 2 ^ k) by lia.
  apply Z.pow_lt_mono_r_iff in H; lia.
Qed.

Lemma digits2_pos_shift m k :
  Zpos (digits2_pos (Pos.iter xO m k)) = Zpos (digits2_pos m) + Zpos k.
Proof.
  revert m. induction k using Pos.peano_ind; intros m.
  - simpl. lia.
  - rewrite Pos.iter_succ. simpl digits2_pos. rewrite Pos2Z.inj_succ, IHk. lia.
Qed.

Lemma shr_1_m mrs : 0 <= shr_m mrs -> shr_m (shr_1 mrs) = shr_m mrs / 2.
Proof.
  destruct mrs as [m r s]. cbn [shr_m]. intros Hm.
  rewrite <- Z.div2_div. destruct m as [|[p|p|]|p]; try lia; reflexivity.
Qed.

Lemma pow2_xI p : 2 ^ Zpos p~1 = 2 * (2 ^ Zpos p * 2 ^ Zpos p).
Proof.
  replace (Zpos p~1) with (Zpos p + Zpos p + 1) by lia.
  rewrite !Z.pow_add_r by lia. lia.
Qed.

Lemma pow2_xO p : 2 ^ Zpos p~0 = 2 ^ Zpos p * 2 ^ Zpos p.
Proof.
  replace (Zpos p~0) with (Zpos p + Zpos p) by lia.
  now rewrite Z.pow_add_r by lia.
Qed.

Lemma iter_shr_1_m p mrs :
  0 <= shr_m mrs ->
  shr_m (SpecFloat.iter_pos shr_1 p mrs) = shr_m mrs / 2 ^ Zpos p.
Proof.
  revert mrs. induction p as [p IH|p IH|]; intros mrs Hm;
    cbn [SpecFloat.iter_pos].
  - assert (Hp : 0 < 2 ^ Zpos p) by (apply Z.pow_pos_nonneg; lia).
    assert (H1 : 0 <= shr_m (shr_1 mrs)).
    { rewrite shr_1_m by exact Hm. apply Z.div_pos; lia. }
    assert (H2 : 0 <= shr_m (SpecFloat.iter_pos shr_1 p (shr_1 mrs))).
    { rewrite IH by exact H1. now apply Z.div_pos. }
    rewrite IH by exact H2. rewrite IH by exact H1.
    rewrite shr_1_m by exact Hm.
    rewrite !Z.div_div by lia. now rewrite pow2_xI, Z.mul_assoc.
  - assert (Hp : 0 < 2 ^ Zpos p) by (apply Z.pow_pos_nonneg; lia).
    assert (H1 : 0 <= shr_m (SpecFloat.iter_pos shr_1 p mrs)).
    { rewrite IH by exact Hm. now apply Z.div_pos. }
    rewrite IH by exact H1. rewrite IH by exact Hm.
    rewrite Z.div_div by lia. now rewrite pow2_xO.
  - rewrite shr_1_m by exact Hm. reflexivity.
Qed.

Lemma shr_m_exact m : shr_m (shr_record_of_loc m loc_Exact) = m.
Proof. reflexivity. Qed.

(** What one rounding step does to a mantissa that is not negative:
    the mantissa is divided by a power of two, and the exponent grows
    by as much. *)
Lemma shr_value m e n :
  0 <= m ->
  let '(mrs, e') := shr (shr_record_of_loc m loc_Exact) e n in
  (n <= 0 -> shr_m mrs = m /\ e' = e
             /\ loc_of_shr_record mrs = loc_Exact)
  /\ (0 < n -> shr_m mrs = m / 2 ^ n /\ e' = e + n).
Proof.
  intros Hm. unfold shr. destruct n as [|p|p].
  - split; [intros _; now repeat split | lia].
  - split; [lia | intros _]. split; [ | reflexivity].
    now rewrite iter_shr_1_m.
  - split; [intros _; now repeat split | lia].
Qed.

Lemma round_nearest_even_bounds m l :
  m <= round_nearest_even m l <= m + 1.
Proof.
  destruct l as [|[ | | ]]; simpl; try lia. destruct (Z.even m); lia.
Qed.

Lemma round_nearest_even_exact m : round_nearest_even m loc_Exact = m.
Proof. reflexivity. Qed.

Lemma pow2_pos k : 0 <= k -> 0 < 2 ^ k.
Proof. intros. apply Z.pow_pos_nonneg; lia. Qed.

Lemma pow2_add a b : 0 <= a -> 0 <= b -> 2 ^ (a + b) = 2 ^ a * 2 ^ b.
Proof. intros. now apply Z.pow_add_r. Qed.

Lemma fexp_le x y : x <= y -> fexp prec emax x <= fexp prec emax y.
Proof. unfold fexp. lia. Qed.

Lemma fexp_emin x : emin <= fexp prec emax x.
Proof. unfold fexp. lia. Qed.

(** A mantissa below [m * 2^j] has at most [j] digits more than [m]. *)
Lemma digits2_pos_scaled q m j :
  0 <= j -> Zpos q <= Zpos m * 2 ^ j ->
  Zpos (digits2_pos q) <= Zpos (digits2_pos m) + j.
Proof.
  intros Hj Hle. apply digits2_pos_below; [lia | ].
  pose proof (digits2_pos_bounds m) as [_ Hm].
  pose proof (pow2_pos j Hj).
  rewrite pow2_add by lia. nia.
Qed.

(** Rounding a mantissa that already has the exponent of its format
    changes nothing. *)
Lemma binary_round_aux_canonical s m e :
  fexp prec emax (Zpos (digits2_pos m) + e) <= e ->
  binary_round_aux prec emax s (Zpos m) e loc_Exact
  = if e <=? emax - prec then S754_finite s m e else S754_infinity s.
Proof.
  intros Hle. unfold binary_round_aux, shr_fexp. cbn [Zdigits2].
  pose proof (shr_value (Zpos m) e
                (fexp prec emax (Zpos (digits2_pos m) + e) - e)) as H.
  destruct (shr _ e _) as [mrs e'].
  destruct H as [H _]; [lia | ]. destruct H as (Hm & He & Hl); [lia | ].
  rewrite Hm, Hl, He. cbn [round_nearest_even Zdigits2].
  pose proof (shr_value (Zpos m) e
                (fexp prec emax (Zpos (digits2_pos m) + e) - e)) as H2.
  destruct (shr _ e _) as [mrs2 e2].
  destruct H2 as [H2 _]; [lia | ]. destruct H2 as (Hm2 & He2 & _); [lia | ].
  rewrite Hm2, He2. reflexivity.
Qed.

(** The rounding of a positive [D * 2^ez] that lies below a number
    [ma * 2^ea] of the format does not exceed that number. *)
Lemma binary_round_below (D : positive) (ez : Z) (ma : positive) (ea : Z) :
  canonical_mantissa prec emax ma ea = true ->
  ea <= emax - prec ->
  emin <= ez <= ea ->
  Zpos D < Zpos ma * 2 ^ (ea - ez) ->
  match binary_round prec emax false D ez with
  | S754_zero s => s = false
  | S754_finite s m e =>
      s = false /\ emin <= e <= ea
      /\ Zpos m * 2 ^ (e - emin) <= Zpos ma * 2 ^ (ea - emin)
  | _ => False
  end.
Proof.
  intros Ca Hea Hez HD. unfold canonical_mantissa in Ca.
  apply Z.eqb_eq in Ca.
  assert (Hd : Zpos (digits2_pos D) + ez <= Zpos (digits2_pos ma) + ea).
  { pose proof (digits2_pos_scaled D ma (ea - ez)). lia. }
  pose proof (fexp_le _ _ Hd) as He1. rewrite Ca in He1.
  pose proof (fexp_emin (Zpos (digits2_pos D) + ez)) as He1'.
  unfold binary_round, shl_align.
  set (e1 := fexp prec emax (Zpos (digits2_pos D) + ez)) in *.
  destruct (e1 - ez) as [|k|k] eqn:Ek.
  - (* the exponent of the format is ez *)
    rewrite binary_round_aux_canonical by (fold e1; lia).
    replace (ez <=? emax - prec) with true by (symmetry; apply Z.leb_le; lia).
    split; [reflexivity | ]. split; [lia | ].
    replace (ea - emin) with ((ea - ez) + (ez - emin)) by lia.
    rewrite pow2_add by lia.
    pose proof (pow2_pos (ez - emin)). nia.
  - (* digits are lost: the mantissa is shifted to the right *)
    assert (Hk : e1 = ez + Zpos k) by lia.
    unfold binary_round_aux, shr_fexp. cbn [Zdigits2]. fold e1. rewrite Ek.
    pose proof (shr_value (Zpos D) ez (Zpos k)) as H.
    destruct (shr _ ez (Zpos k)) as [mrs e'].
    destruct H as [_ H]; [lia | ]. destruct H as (Hm1 & He'); [lia | ].
    pose proof (round_nearest_even_bounds (shr_m mrs) (loc_of_shr_record mrs))
      as Hr.
    set (mr := round_nearest_even (shr_m mrs) (loc_of_shr_record mrs)) in *.
    (* the bound, at the exponent e1 *)
    assert (Hpk : 0 < 2 ^ Zpos k) by (apply pow2_pos; lia).
    assert (Hsplit : 2 ^ (ea - ez) = 2 ^ (ea - e1) * 2 ^ Zpos k).
    { replace (ea - ez) with ((ea - e1) + Zpos k) by lia.
      apply pow2_add; lia. }
    assert (Hm1' : shr_m mrs < Zpos ma * 2 ^ (ea - e1)).
    { rewrite Hm1. apply Z.div_lt_upper_bound; [exact Hpk | ].
      rewrite Hsplit in HD. lia. }
    assert (Hm1pos : 0 <= shr_m mrs).
    { rewrite Hm1. apply Z.div_pos; lia. }
    assert (Hmr : 0 <= mr <= Zpos ma * 2 ^ (ea - e1)) by lia.
    subst e'. rewrite <- Hk.
    pose proof (shr_value mr e1 (fexp prec emax (Zdigits2 mr + e1) - e1)) as H2.
    destruct (shr _ e1 _) as [mrs2 e2].
    destruct H2 as [Hsame Hshift]; [lia | ].
    assert (Hdig : fexp prec emax (Zdigits2 mr + e1) <= ea).
    { destruct mr as [|q|q]; [ | | lia].
      - cbn [Zdigits2]. rewrite <- Ca. apply fexp_le.
        pose proof (Pos2Z.is_pos (digits2_pos ma)). lia.
      - cbn [Zdigits2]. rewrite <- Ca. apply fexp_le.
        pose proof (digits2_pos_scaled q ma (ea - e1)). lia. }
    assert (Hvalue :
      e1 <= e2 <= ea /\ 0 <= shr_m mrs2
      /\ shr_m mrs2 * 2 ^ (e2 - emin) <= Zpos ma * 2 ^ (ea - emin)).
    { assert (Hbase : mr * 2 ^ (e1 - emin) <= Zpos ma * 2 ^ (ea - emin)).
      { replace (ea - emin) with ((ea - e1) + (e1 - emin)) by lia.
        rewrite pow2_add by lia.
        pose proof (pow2_pos (e1 - emin)). nia. }
      destruct (Z_le_gt_dec (fexp prec emax (Zdigits2 mr + e1) - e1) 0)
        as [Hn|Hn].
      - destruct (Hsame Hn) as (-> & -> & _). split; [lia | ].
        split; [lia | exact Hbase].
      - destruct Hshift as (-> & ->); [lia | ].
        set (n := fexp prec emax (Zdigits2 mr + e1) - e1) in *.
        assert (Hpn : 0 < 2 ^ n) by (apply pow2_pos; lia).
        split; [lia | ]. split; [apply Z.div_pos; lia | ].
        replace (e1 + n - emin) with (n + (e1 - emin)) by lia.
        rewrite pow2_add by lia.
        pose proof (Z.mul_div_le mr (2 ^ n) Hpn).
        pose proof (pow2_pos (e1 - emin)).
        assert (mr / 2 ^ n * 2 ^ n <= mr) by lia.
        assert (0 <= mr / 2 ^ n) by (apply Z.div_pos; lia).
        nia. }
    destruct Hvalue as (He2 & Hpos & Hval).
    destruct (shr_m mrs2) as [|m|m]; [reflexivity | | lia].
    replace (e2 <=? emax - prec) with true by (symmetry; apply Z.leb_le; lia).
    split; [reflexivity | ]. split; [lia | exact Hval].
  - (* room is left: the mantissa is shifted to the left *)
    assert (Hk : ez = e1 + Zpos k) by lia.
    rewrite binary_round_aux_canonical.
    + replace (e1 <=? emax - prec) with true by (symmetry; apply Z.leb_le; lia).
      split; [reflexivity | ]. split; [lia | ].
      rewrite iter_xO_pow.
      replace (ea - emin) with ((ea - ez) + (Zpos k + (e1 - emin))) by lia.
      rewrite !pow2_add by lia.
      pose proof (pow2_pos (e1 - emin)). pose proof (pow2_pos (Zpos k)).
      nia.
    + rewrite digits2_pos_shift.
      replace (Zpos (digits2_pos D) + Zpos k + e1)
        with (Zpos (digits2_pos D) + ez) by lia.
      fold e1. lia.
Qed.
End RoundingFacts.

(** ** More binary64 arithmetic *)

Module NumberFacts.
Import FloatFacts.
Local Open Scope Z_scope.



Lemma is_nan_true a : is_nan a = true -> a = nan.
Proof.
  unfold is_nan. rewrite FloatAxioms.eqb_spec. unfold SFeqb. intros Hn.
  apply Prim2SF_inj. change (Prim2SF nan) with S754_nan.
  pose proof (SFcompare_antisym (Prim2SF a) (Prim2SF a)) as H.
  destruct (Prim2SF a) as [s|s| |s m e]; try reflexivity;
    destruct (SFcompare _ _) as [[ | | ]|] eqn:E; simpl in *;
    try discriminate; try congruence;
    destruct s; simpl in E; try discriminate.
  all: rewrite Z.compare_refl in E.
  all: try (rewrite Pos.compare_cont_refl in E; discriminate).
Qed.

Lemma sub_nan_l a : (nan - a)%float = nan.
Proof. apply Prim2SF_inj. rewrite sub_spec. reflexivity. Qed.

Lemma sub_nan_r a : (a - nan)%float = nan.
Proof.
  apply Prim2SF_inj. rewrite sub_spec. change (Prim2SF nan) with S754_nan.
  unfold SF64sub. destruct (Prim2SF a) as [s|s| |s m e]; reflexivity.
Qed.

Lemma mul_nan_l a : (nan * a)%float = nan.
Proof. apply Prim2SF_inj. rewrite mul_spec. reflexivity. Qed.
End NumberFacts.

(** ** The numbers a numeric(18,8) column holds *)

Module HeldFacts.
Import Postgres NumberFacts.
Import FloatFacts.
Import RoundingFacts.
Local Open Scope Z_scope.

Lemma SFcompare_refl x :
  x <> S754_nan -> SFcompare x x = Some Eq.
Proof.
  destruct x as [s|s| |s m e]; try destruct s; simpl; try reflexivity;
    try congruence; intros _; rewrite Z.compare_refl;
    now rewrite Pos.compare_cont_refl.
Qed.

Lemma is_nan_spec x :
  is_nan x = match Prim2SF x with S754_nan => true | _ => false end.
Proof.
  unfold is_nan. rewrite FloatAxioms.eqb_spec. unfold SFeqb.
  destruct (Prim2SF x) as [s|s| |s m e] eqn:E; try reflexivity;
    rewrite SFcompare_refl by discriminate; reflexivity.
Qed.

Lemma binary_round_aux_not_nan s m e :
  binary_round_aux prec emax s (Zpos m) e loc_Exact <> S754_nan.
Proof.
  unfold binary_round_aux, shr_fexp.
  pose proof (shr_value (Zpos m) e
                (fexp prec emax (Zdigits2 (Zpos m) + e) - e)) as H.
  destruct (shr _ e _) as [mrs e'].
  assert (Hm : 0 <= shr_m mrs).
  { destruct (Z_le_gt_dec (fexp prec emax (Zdigits2 (Zpos m) + e) - e) 0)
      as [Hn|Hn].
    - destruct H as [H _]; [lia | ]. destruct (H Hn) as (-> & _). lia.
    - destruct H as [_ H]; [lia | ]. destruct H as (-> & _); [lia | ].
      apply Z.div_pos; [lia | apply pow2_pos; lia]. }
  pose proof (round_nearest_even_bounds (shr_m mrs) (loc_of_shr_record mrs))
    as Hr.
  set (mr := round_nearest_even (shr_m mrs) (loc_of_shr_record mrs)) in *.
  pose proof (shr_value mr e' (fexp prec emax (Zdigits2 mr + e') - e')) as H2.
  destruct (shr _ e' _) as [mrs2 e2].
  assert (Hm2 : 0 <= shr_m mrs2).
  { destruct (Z_le_gt_dec (fexp prec emax (Zdigits2 mr + e') - e') 0)
      as [Hn|Hn].
    - destruct H2 as [H2 _]; [lia | ]. destruct (H2 Hn) as (-> & _). lia.
    - destruct H2 as [_ H2]; [lia | ]. destruct H2 as (-> & _); [lia | ].
      apply Z.div_pos; [lia | apply pow2_pos; lia]. }
  destruct (shr_m mrs2) as [|q|q]; [discriminate | | lia].
  destruct (_ <=? _); discriminate.
Qed.

Lemma binary_normalize_not_nan m e sz :
  binary_normalize prec emax m e sz <> S754_nan.
Proof.
  destruct m as [|p|p]; simpl; [discriminate | | ];
    unfold binary_round; destruct (shl_align _ _ _) as [mz ez];
    apply binary_round_aux_not_nan.
Qed.

(** The sum of a finite number and a number is a number. *)
Lemma SFadd_finite_not_nan x y :
  (match x with S754_zero _ | S754_finite _ _ _ => True | _ => False end) ->
  y <> S754_nan ->
  SFadd prec emax x y <> S754_nan.
Proof.
  destruct x as [sx|sx| |sx mx ex], y as [sy|sy| |sy my ey];
    try contradiction; try congruence; intros _ _;
    try destruct sx; try destruct sy; try discriminate.
  all: cbn [SFadd]; apply binary_normalize_not_nan.
Qed.

Lemma canonical_emin m e :
  canonical_mantissa prec emax m e = true -> emin <= e.
Proof.
  unfold canonical_mantissa. intros H. apply Z.eqb_eq in H.
  rewrite <- H. apply fexp_emin.
Qed.

(** A difference [x - y] with [0 < y <= x] and [x] below [z] is a
    number that is not negative and lies below [z]. *)
Lemma SFsub_below ma ea mb eb z :
  valid_binary (S754_finite false ma ea) = true ->
  valid_binary (S754_finite false mb eb) = true ->
  SFltb (S754_finite false ma ea) (S754_finite false mb eb) = false ->
  SFltb (S754_finite false ma ea) z = true ->
  match SFsub prec emax (S754_finite false ma ea) (S754_finite false mb eb) with
  | S754_zero s => s = false
  | S754_finite s m e => s = false
  | _ => False
  end
  /\ SFltb (SFsub prec emax (S754_finite false ma ea)
              (S754_finite false mb eb)) z = true.
Proof.
  intros Va Vb Hab Haz. cbn [valid_binary] in Va, Vb. unfold bounded in Va, Vb.
  apply andb_prop in Va, Vb. destruct Va as [Ca Ba], Vb as [Cb Bb].
  apply Z.leb_le in Ba, Bb.
  pose proof (canonical_emin _ _ Ca) as Ha. pose proof (canonical_emin _ _ Cb) as Hb.
  cbn [SFsub cond_Zopp].
  set (ez := Z.min ea eb).
  assert (HA : Zpos (fst (shl_align ma ea ez)) = Zpos ma * 2 ^ (ea - ez))
    by (apply shl_align_value; lia).
  assert (HB : Zpos (fst (shl_align mb eb ez)) = Zpos mb * 2 ^ (eb - ez))
    by (apply shl_align_value; lia).
  (* y <= x, on the aligned mantissas *)
  assert (Hle : Zpos (fst (shl_align mb eb ez)) <= Zpos (fst (shl_align ma ea ez))).
  { rewrite HA, HB. unfold SFltb in Hab. cbn [SFcompare] in Hab.
    destruct (ea ?= eb) eqn:E.
    - apply Z.compare_eq in E. subst eb. subst ez.
      rewrite Z.min_id, Z.sub_diag.
      assert (Pos.compare ma mb <> Lt).
      { unfold Pos.compare. destruct (Pos.compare_cont Eq ma mb); congruence. }
      rewrite Pos.compare_nlt_iff in H. lia.
    - discriminate.
    - apply Z.compare_gt_iff in E. subst ez.
      rewrite Z.min_r, Z.sub_diag by lia.
      pose proof (canonical_exponent_order ma ea mb eb Ca Cb E). lia. }
  destruct (Zpos (fst (shl_align ma ea ez)) - Zpos (fst (shl_align mb eb ez)))
    as [|D|D] eqn:ED; [ | | lia].
  - cbn [binary_normalize]. split; [reflexivity | ].
    destruct z as [sz|sz| |sz mz ezz]; try destruct sz; cbn in Haz |- *;
      try discriminate; reflexivity.
  - cbn [binary_normalize].
    assert (Hround := binary_round_below D ez ma ea Ca Ba).
    assert (Hez : emin <= ez <= ea) by lia.
    assert (HD : Zpos D < Zpos ma * 2 ^ (ea - ez)) by lia.
    specialize (Hround Hez HD). clear Hez HD.
    destruct (binary_round prec emax false D ez) as [sr|sr| |sr m e].
    + subst sr. split; [reflexivity | ].
      destruct z as [sz|sz| |sz mz ezz]; try destruct sz; cbn in Haz |- *;
        try discriminate; reflexivity.
    + contradiction.
    + contradiction.
    + destruct Hround as (-> & He & Hval).
      split; [reflexivity | ].
      destruct z as [sz|sz| |sz mz ezz]; try destruct sz;
        try (cbn in Haz; discriminate); try reflexivity.
      unfold SFltb in *. cbn [SFcompare] in *.
      destruct (ea ?= ezz) eqn:E; try discriminate.
      * apply Z.compare_eq in E. subst ezz.
        destruct (e ?= ea) eqn:E2; [ | reflexivity | ].
        -- apply Z.compare_eq in E2. subst e.
           assert (Hm : Zpos m <= Zpos ma).
           { pose proof (pow2_pos (ea - emin)). nia. }
           assert (Hlt : Pos.compare ma mz = Lt).
           { unfold Pos.compare. destruct (Pos.compare_cont Eq ma mz); congruence. }
           rewrite Pos.compare_lt_iff in Hlt.
           assert (Hgoal : Pos.compare m mz = Lt) by (apply Pos.compare_lt_iff; lia).
           unfold Pos.compare in Hgoal. now rewrite Hgoal.
        -- apply Z.compare_gt_iff in E2. lia.
      * rewrite Z.compare_lt_iff in E.
        assert (E2 : (e ?= ezz) = Lt) by (apply Z.compare_lt_iff; lia).
        now rewrite E2.
Qed.

Local Open Scope float_scope.

Lemma abs_ltb_not_nan x c : (abs x <? c) = true -> is_nan x = false.
Proof.
  rewrite ltb_spec, abs_spec, is_nan_spec.
  destruct (Prim2SF x); [reflexivity | reflexivity | discriminate | reflexivity].
Qed.

(** The difference of a number [a] of magnitude below [c] and a positive
    number [b] that does not exceed it is not below zero, and its
    magnitude is below [c]. *)
Lemma sub_below a b c :
  is_nan b = false -> (b <=? 0) = false -> (a <? b) = false ->
  (abs a <? c) = true ->
  (a - b <? 0) = false /\ (abs (a - b) <? c) = true.
Proof.
  rewrite !ltb_spec, leb_spec, !abs_spec, sub_spec, is_nan_spec.
  change (Prim2SF 0) with (S754_zero false).
  pose proof (Prim2SF_valid a) as Va. pose proof (Prim2SF_valid b) as Vb.
  unfold SF64sub. intros Hnan Hb Hab Hac.
  destruct (Prim2SF b) as [sb|sb| |sb mb eb]; try destruct sb;
    try discriminate;
    destruct (Prim2SF a) as [sa|sa| |sa ma ea]; try destruct sa;
    try discriminate;
    try (cbn [SFabs] in Hac; destruct (Prim2SF c) as [sc|sc| |sc mc ec];
         try destruct sc; discriminate).
  cbn [SFabs] in Hac.
  destruct (SFsub_below ma ea mb eb (Prim2SF c) Va Vb Hab Hac) as [Hshape Hlt].
  destruct (SFsub prec emax (S754_finite false ma ea) (S754_finite false mb eb))
    as [s|s| |s m e]; try contradiction; subst s; split;
    try reflexivity; exact Hlt.
Qed.

(** What the column holds less a positive amount that does not exceed
    it is again a value the column holds. *)
Lemma sub_holds a b :
  holds a = true -> (b <=? 0) = false -> (a <? b) = false ->
  holds (a - b) = true.
Proof.
  unfold holds. intros Ha Hb Hab.
  destruct (is_nan a) eqn:Ea.
  { apply is_nan_true in Ea. subst a. now rewrite sub_nan_l. }
  destruct (is_nan b) eqn:Eb.
  { apply is_nan_true in Eb. subst b. now rewrite sub_nan_r. }
  cbn [orb] in Ha.
  destruct (sub_below a b _ Eb Hb Hab Ha) as [_ ->]. apply orb_true_r.
Qed.

(** The sum of a number of bounded magnitude and a number is a
    number. *)
Lemma add_not_nan a b c :
  (abs a <? c) = true -> is_nan b = false -> is_nan (a + b) = false.
Proof.
  rewrite ltb_spec, abs_spec, !is_nan_spec, add_spec. intros Ha Hb.
  pose proof (SFadd_finite_not_nan (Prim2SF a) (Prim2SF b)) as H.
  unfold SF64add.
  destruct (SFadd prec emax (Prim2SF a) (Prim2SF b)); try reflexivity.
  elim H; [ | | reflexivity].
  - destruct (Prim2SF a); try exact I; try discriminate.
    destruct (Prim2SF c) as [sc|sc| |sc mc ec]; try destruct sc;
      destruct s; discriminate.
  - destruct (Prim2SF b); discriminate.
Qed.
End HeldFacts.

(** ** The builtins on sample values *)

Example Math_round_samples :
  map Js.Math_round
    [0.94; 0.5; 2.5; 0.49999999999999994; 400000; 399999.7; 1.5; (-1.5);
     (-0.4); (-2.6); (-2.5); 4503599627370495.5; 1e300]%float
  = [1; 1; 3; 0; 400000; 400000; 2; (-1); (-0); (-3); (-2);
     4503599627370496; 1e300]%float.
Proof. vm_compute. reflexivity. Qed.

Example Math_max_samples :
  map (Js.Math_max 0) [3; (-3); (-0); nan; infinity]%float
  = [3; 0; 0; nan; infinity]%float.
Proof. vm_compute. reflexivity. Qed.


(** ** The tax estimate *)

Module TaxFacts.
Import Tax Routes.
Local Open Scope float_scope.

Lemma or_zero_not_nan x : is_nan (Js.or_zero x) = false.
Proof.
  unfold Js.or_zero, Js.truthy_number.
  destruct (is_nan x) eqn:E; simpl; [reflexivity | ].
  destruct (is_zero x); simpl; [reflexivity | exact E].
Qed.


(** A JSON number that is not [NaN] is read as itself (the two zeros
    are read as [+0]). *)
Lemma numeric_input_value n :
  is_nan n = false -> (Js.or_zero (parseFloat (Num n)) =? n) = true.
Proof.
  intros En. simpl. destruct (is_zero n) eqn:Ez.
  - change (Js.or_zero 0) with 0.
    unfold is_zero, zero in Ez. rewrite FloatAxioms.eqb_spec in *.
    unfold SFeqb in *.
    rewrite (FloatFacts.SFcompare_antisym (Prim2SF n) (Prim2SF 0)).
    destruct (SFcompare (Prim2SF n) (Prim2SF 0)) as [[ | | ]|];
      simpl; congruence.
  - unfold Js.or_zero, Js.truthy_number. rewrite En, Ez. simpl.
    unfold is_nan in En. destruct (n =? n); [reflexivity | discriminate].
Qed.

Lemma taxRate_bracket income :
  is_nan income = false -> bracket_rate income (taxRate income).
Proof.
  intros Hn. unfold bracket_rate, taxRate.
  destruct (income <=? 12000000) eqn:E1; [tauto | ].
  apply FloatFacts.leb_false_ltb in E1; [ | exact Hn | reflexivity].
  destruct (income <=? 46000000) eqn:E2; [tauto | ].
  apply FloatFacts.leb_false_ltb in E2; [ | exact Hn | reflexivity].
  destruct (income <=? 88000000) eqn:E3; [tauto | ].
  apply FloatFacts.leb_false_ltb in E3; [ | exact Hn | reflexivity].
  destruct (income <=? 150000000) eqn:E4; [tauto | ].
  apply FloatFacts.leb_false_ltb in E4; [ | exact Hn | reflexivity].
  tauto.
Qed.

(** C1, as stated, at grossIncome = 10,000,005, taxPaid = 1,000,000,
    deductions = 0: the calculated tax is 600,000.3 and
    max(0, taxPaid - calculatedTax) is 399,999.7, but the amount the
    estimate returns is 400,000: the handler sends the rounded
    value. *)
Lemma estimate_returns_rounded_amount :
  let e := estimate (Num 10000005) (Num 1000000) (Num 0) None in
  let refund := Js.Math_max 0 (1000000 - calculatedTax (taxBreakdown e)) in
  (refund <? 400000) = true /\
  estimatedAmount e = 400000 /\
  estimatedAmount e <> refund.
Proof.
  cbv zeta. split; [vm_compute; reflexivity | ].
  split; [vm_compute; reflexivity | ].
  intros Heq. apply (f_equal (fun x => x <? 400000)) in Heq.
  vm_compute in Heq. discriminate.
Qed.

(** C1 (amended): for all inputs, with income, paid and deduct the
    numbers the three fields are read as (a number that is not [NaN] is
    read as itself), the estimate answers 200 and leaves the store
    alone; taxableIncome = max(0, income - deduct); one flat rate is
    selected by the bracket of the gross income (6%, 15%, 24%, 35%, 38%
    at the bounds 12,000,000, 46,000,000, 88,000,000 and 150,000,000);
    calculatedTax = taxableIncome * rate; and the returned amount is
    Math.round(max(0, paid - calculatedTax)).  In particular
    estimate(10,000,000, 1,000,000, 0) has rate 6%, calculatedTax
    600,000 and amount 400,000. *)
Theorem estimate_computation :
  (forall (V : Type) (JV : JsValue V) (grossIncome taxPaid deductions : V)
          (refundType : option string) (w : World V),
      let income := Js.or_zero (parseFloat grossIncome) in
      let paid := Js.or_zero (parseFloat taxPaid) in
      let deduct := Js.or_zero (parseFloat deductions) in
      exists e rate,
        estimate_handler grossIncome taxPaid deductions refundType w
        = (Value (Res 200 (inl e)), w) /\
        bracket_rate income rate /\
        taxableIncome (taxBreakdown e) = Js.Math_max 0 (income - deduct) /\
        calculatedTax (taxBreakdown e) = taxableIncome (taxBreakdown e) * rate /\
        estimatedAmount e
        = Js.Math_round (Js.Math_max 0 (paid - calculatedTax (taxBreakdown e)))) /\
  (forall n : float,
      is_nan n = false -> (Js.or_zero (parseFloat (Num n)) =? n) = true) /\
  (let e := estimate (Num 10000000) (Num 1000000) (Num 0) None in
   taxRate 10000000 = 0.06 /\
   effectiveRate (taxBreakdown e) = 6 /\
   calculatedTax (taxBreakdown e) = 600000 /\
   estimatedAmount e = 400000).
Proof.
  split.
  - intros V JV g p d rt w income paid deduct.
    exists (estimate g p d rt), (taxRate income).
    split; [reflexivity | ].
    split; [apply taxRate_bracket, or_zero_not_nan | ].
    repeat split.
  - split; [exact numeric_input_value | ].
    cbv zeta. repeat split; vm_compute; reflexivity.
Qed.

(** C1 (amended) at the gross income 10,000,000: the number is read as
    itself and falls in the first bracket. *)
Lemma estimate_computation_witness :
  (Js.or_zero (parseFloat (Num 10000000)) =? 10000000) = true
  /\ bracket_rate 10000000 0.06.
Proof.
  destruct estimate_computation as (_ & Hnumeric & _).
  split; [exact (Hnumeric 10000000 eq_refl) | ].
  left. split; reflexivity.
Defined.


End TaxFacts.
(** ** The wallet ledger *)

Module LedgerFacts.
Import Schema Postgres Routes.

Section Facts.
Context {V : Type} {JV : JsValue V}.
Variable db : Database V.
Variable schema : TransactionObject V -> option (InsertTransaction V).

Lemma strict_eq_XP a : Js.strict_eq a "XP" = true -> a = Some "XP"%string.
Proof.
  destruct a as [s|]; simpl; [ | discriminate].
  intros E. apply String.eqb_eq in E. now subst.
Qed.

(** *** The handlers, path by path *)

Lemma send_missing_parameters env req w :
  send_incomplete req = true ->
  send db schema env req w
  = (Value (Res 400 (Message "Missing required transaction parameters")), w).
Proof.
  unfold send_incomplete, send, try_catch, send_body. intros ->. reflexivity.
Qed.

Lemma send_invalid_amount env req w :
  send_incomplete req = false ->
  (parseFloat (send_amount req) <=? 0)%float = true ->
  send db schema env req w
  = (Value (Res 400 (Message "Invalid transaction amount")), w).
Proof.
  unfold send_incomplete, send, try_catch, send_body. intros -> ->.
  reflexivity.
Qed.

Lemma send_other_path env req w :
  send_incomplete req = false ->
  (parseFloat (send_amount req) <=? 0)%float = false ->
  Js.strict_eq (send_assetType req) "XP" = false ->
  send db schema env req w
  = match schema (send_otherData env req) with
    | None => (Value (Res 400 (Failed "Payment failed" ZodError)), w)
    | Some data =>
        match Storage.createTransaction db (serial env) (now env) data
                (transactions w) with
        | None =>
            (Value (Res 400 (Failed "Payment failed" InsertError)),
             logged w [RecordTransaction])
        | Some (row, table) =>
            (Value (Res 200 (Created row)),
             {| wallet_balances := wallet_balances w;
                transactions := table;
                steps := steps w ++ [RecordTransaction] |})
        end
    end.
Proof.
  unfold send_incomplete, send, try_catch, send_body. intros -> -> ->.
  unfold bind, parse. destruct (schema _) as [data|]; [ | reflexivity].
  unfold ret, createTransaction, bind, step.
  cbn [wallet_balances transactions steps].
  destruct (Storage.createTransaction _ _ _ _ _) as [[row table]|];
    reflexivity.
Qed.

Lemma send_xp_path env req w :
  send_incomplete req = false ->
  (parseFloat (send_amount req) <=? 0)%float = false ->
  Js.strict_eq (send_assetType req) "XP" = true ->
  let currentBalance := send_currentBalance (wallet_rows w) in
  let newBalance := (currentBalance - parseFloat (send_amount req))%float in
  send db schema env req w
  = if (currentBalance <? parseFloat (send_amount req))%float
    then
      (Value (Res 400 (Insufficient "Insufficient balance for withdrawal"
                         currentBalance (send_amount req))),
       logged w [ReadBalance; ValidateSufficiency])
    else
      match schema (send_transactionData env req) with
      | None =>
          (Value (Res 400 (Failed "Payment failed" ZodError)),
           logged w [ReadBalance; ValidateSufficiency])
      | Some data =>
          match Storage.createTransaction db (serial env) (now env) data
                  (transactions w) with
          | None =>
              (Value (Res 400 (Failed "Payment failed" InsertError)),
               logged w [ReadBalance; ValidateSufficiency; RecordTransaction])
          | Some (row, table) =>
              match numeric_18_8 db newBalance with
              | None =>
                  (Value (Res 400 (Failed "Payment failed" NumericOverflow)),
                   {| wallet_balances := wallet_balances w;
                      transactions := table;
                      steps :=
                        steps w ++
                        [ReadBalance; ValidateSufficiency; RecordTransaction;
                         WriteBalance newBalance] |})
              | Some stored =>
                  (Value (Res 200
                            (Completed row ("0x" ++ randomHex env)
                               currentBalance newBalance
                               "Withdrawal completed successfully - balance updated")),
                   {| wallet_balances :=
                        map (set_balance (now env) stored walletAddress)
                          (wallet_balances w);
                      transactions := table;
                      steps :=
                        steps w ++
                        [ReadBalance; ValidateSufficiency; RecordTransaction;
                         WriteBalance newBalance] |})
              end
          end
      end.
Proof.
  unfold send_incomplete, send, try_catch, send_body, logged.
  intros -> -> ->.
  cbv zeta. unfold bind at 1, select_balance, bind at 1, step at 1.
  cbn [wallet_balances transactions steps].
  unfold bind at 1, step at 1. cbn [wallet_balances transactions steps].
  unfold wallet_rows.
  destruct (_ <? _)%float.
  - unfold ret. rewrite <- app_assoc. reflexivity.
  - unfold bind, parse. destruct (schema _) as [data|].
    + unfold ret, createTransaction, update_balance, bind, step.
      cbn [wallet_balances transactions steps].
      destruct (Storage.createTransaction _ _ _ _ _) as [[row table]|].
      * cbn [wallet_balances transactions steps].
        destruct (numeric_18_8 db _) as [stored|];
          rewrite <- !app_assoc; reflexivity.
      * rewrite <- !app_assoc. reflexivity.
    + unfold throw, ret. rewrite <- app_assoc. reflexivity.
Qed.

Lemma deposit_invalid_amount env req w :
  deposit_rejected req = true ->
  deposit db schema env req w
  = (Value (Res 400 (Message "Invalid deposit amount")), w).
Proof.
  unfold deposit_rejected, deposit, try_catch, deposit_body. intros ->.
  reflexivity.
Qed.

Lemma deposit_path env req w :
  deposit_rejected req = false ->
  let currentBalance := deposit_currentBalance (wallet_rows w) in
  let newBalance := (currentBalance + parseFloat (deposit_amount req))%float in
  deposit db schema env req w
  = match numeric_18_8 db newBalance with
    | None =>
        (Value (Res 500 (Message "Failed to process deposit")),
         logged w [ReadBalance; WriteBalance newBalance])
    | Some stored =>
        match schema (deposit_transactionData env req) with
        | None =>
            (Value (Res 500 (Message "Failed to process deposit")),
             {| wallet_balances := credited env req w stored;
                transactions := transactions w;
                steps := steps w ++ [ReadBalance; WriteBalance newBalance] |})
        | Some data =>
            match Storage.createTransaction db (serial env) (now env) data
                    (transactions w) with
            | None =>
                (Value (Res 500 (Message "Failed to process deposit")),
                 {| wallet_balances := credited env req w stored;
                    transactions := transactions w;
                    steps :=
                      steps w ++
                      [ReadBalance; WriteBalance newBalance;
                       RecordTransaction] |})
            | Some (row, table) =>
                (Value (Res 200
                          (Completed row ("0x" ++ randomHex env)
                             currentBalance newBalance
                             "Deposit completed successfully")),
                 {| wallet_balances := credited env req w stored;
                    transactions := table;
                    steps :=
                      steps w ++
                      [ReadBalance; WriteBalance newBalance;
                       RecordTransaction] |})
            end
        end
    end.
Proof.
  unfold deposit_rejected, deposit, try_catch, deposit_body, logged, credited.
  intros ->.
  cbv zeta. unfold bind at 1, select_balance, bind at 1, step at 1.
  cbn [wallet_balances transactions steps]. unfold wallet_rows.
  destruct (filter _ _) as [|r rows];
    unfold bind, parse, insert_balance, update_balance, bind, step;
    cbn [wallet_balances transactions steps];
    (destruct (numeric_18_8 db _) as [stored|];
     [ | rewrite <- !app_assoc; reflexivity ]);
    (destruct (schema _) as [data|];
     [ unfold ret, createTransaction, bind, step;
       cbn [wallet_balances transactions steps];
       destruct (Storage.createTransaction _ _ _ _ _) as [[row table]|];
       rewrite <- !app_assoc; reflexivity
     | unfold throw, ret; rewrite <- !app_assoc; reflexivity ]).
Qed.

(** *** The rows of the wallet address after a write *)

Lemma is_address_set clock b a r :
  is_address a (set_balance clock b a r) = is_address a r.
Proof.
  unfold set_balance. destruct (is_address a r) eqn:E; [ | exact E].
  exact E.
Qed.

Lemma filter_set_balance clock b a (rows : list WalletBalance) :
  filter (is_address a) (map (set_balance clock b a) rows)
  = map (set_balance clock b a) (filter (is_address a) rows).
Proof.
  induction rows as [|r rows IH]; [reflexivity | ].
  cbn [map filter]. rewrite is_address_set.
  destruct (is_address a r); cbn [map]; now rewrite IH.
Qed.

Lemma balance_set clock b a r :
  is_address a r = true -> balance (set_balance clock b a r) = b.
Proof. unfold set_balance. now intros ->. Qed.

Lemma filter_is_address a (rows : list WalletBalance) :
  Forall (fun r => is_address a r = true) (filter (is_address a) rows).
Proof.
  apply Forall_forall. intros r Hin. now apply filter_In in Hin.
Qed.

(** After the UPDATE every row of the address holds the new balance. *)
Lemma updated_rows clock b (rows : list WalletBalance) :
  Forall (fun r => balance r = b)
    (filter (is_address walletAddress)
       (map (set_balance clock b walletAddress) rows)).
Proof.
  rewrite filter_set_balance. apply Forall_map.
  eapply Forall_impl; [ | apply filter_is_address].
  intros r Hr. now apply balance_set.
Qed.

Lemma inserted_rows clock b asset (w : World V) :
  wallet_rows w = [] ->
  filter (is_address walletAddress)
    (wallet_balances w ++
     [{| address := walletAddress; balance := b; asset_type := asset;
         updated_at := clock |}])
  = [{| address := walletAddress; balance := b; asset_type := asset;
        updated_at := clock |}].
Proof.
  unfold wallet_rows. intros Hnone. rewrite filter_app, Hnone.
  reflexivity.
Qed.

(** After the write of a deposit every row of the address holds the
    new balance, and there is such a row. *)
Lemma credited_rows env req (w : World V) b :
  Forall (fun r => balance r = b)
    (filter (is_address walletAddress) (credited env req w b))
  /\ filter (is_address walletAddress) (credited env req w b) <> [].
Proof.
  unfold credited. destruct (wallet_rows w) as [|r rows] eqn:Er.
  - rewrite inserted_rows by exact Er. split; [ | discriminate].
    constructor; [reflexivity | constructor].
  - split; [apply updated_rows | ].
    rewrite filter_set_balance. unfold wallet_rows in Er. rewrite Er.
    discriminate.
Qed.

Lemma rows_with (P : float -> Prop) b (rows : list WalletBalance) :
  P b ->
  Forall (fun r => balance r = b) rows ->
  Forall (fun r => P (balance r)) rows.
Proof.
  intros Hb Hall. eapply Forall_impl; [ | exact Hall]. now intros r ->.
Qed.

(** *** What the column makes of a number *)

Lemma numeric_stored x stored :
  numeric_18_8 db x = Some stored ->
  (is_nan x = true /\ stored = nan)
  \/ (is_nan x = false /\ (abs x <? 10000000000)%float = true
      /\ stored = round_8 db x).
Proof.
  unfold numeric_18_8. destruct (is_nan x).
  - intros [= <-]. now left.
  - destruct (abs x <? 10000000000)%float; [ | discriminate].
    intros [= <-]. now right.
Qed.

Lemma numeric_accepts x :
  holds x = true -> exists stored, numeric_18_8 db x = Some stored.
Proof.
  unfold holds, numeric_18_8. destruct (is_nan x); [now eexists | ].
  cbn [orb]. intros ->. now eexists.
Qed.

Lemma numeric_holds x stored :
  numeric_18_8 db x = Some stored -> holds stored = true.
Proof.
  intros H. destruct (numeric_stored x stored H) as [[_ ->] | (_ & Hx & ->)].
  - reflexivity.
  - unfold holds. rewrite (round_8_range db x Hx). apply orb_true_r.
Qed.

Lemma numeric_not_negative x stored :
  numeric_18_8 db x = Some stored ->
  not_negative x -> not_negative stored.
Proof.
  intros H Hx.
  destruct (numeric_stored x stored H) as [[_ ->] | (_ & Hr & ->)].
  - reflexivity.
  - now apply round_8_sign.
Qed.

Lemma numeric_in_range x stored :
  numeric_18_8 db x = Some stored ->
  is_nan x = false -> not_negative x -> in_range stored.
Proof.
  intros H Hn Hx.
  destruct (numeric_stored x stored H) as [[Hnan _] | (_ & Hr & ->)];
    [congruence | ].
  split; [now apply round_8_sign | now apply round_8_range].
Qed.

(** *** One request *)

(** The balance a handler reads: that of the first row, or its
    default. *)
Lemma current_balance (P : float -> Prop) (w : World V) default :
  P default ->
  Forall (fun r => P (balance r)) (wallet_rows w) ->
  P (match wallet_rows w with r :: _ => balance r | [] => default end).
Proof.
  intros Hd Hall. destruct (wallet_rows w) as [|r rows]; [exact Hd | ].
  now inversion Hall.
Qed.

(** A property of the stored balances that a debit and a credit keep is
    kept by every request whose amount is [ok]. *)
Lemma handle_keeps (P : float -> Prop) (ok : float -> Prop) :
  P 1%float -> P 0%float ->
  (forall a b stored,
      P a -> ok b -> (b <=? 0)%float = false -> (a <? b)%float = false ->
      numeric_18_8 db (a - b) = Some stored -> P stored) ->
  (forall a b stored,
      P a -> ok b -> (b <=? 0)%float = false ->
      numeric_18_8 db (a + b) = Some stored -> P stored) ->
  forall (r : Request V) (w : World V),
    match r with
    | SendReq _ req => ok (parseFloat (send_amount req))
    | DepositReq _ req => ok (parseFloat (deposit_amount req))
    end ->
    Forall (fun r => P (balance r)) (wallet_rows w) ->
    Forall (fun r => P (balance r)) (wallet_rows (snd (handle db schema r w))).
Proof.
  intros Hone Hzero Hdebit Hcredit r w Hok Hinv.
  destruct r as [env req|env req]; cbn [handle].
  - destruct (send_incomplete req) eqn:E1.
    { now rewrite send_missing_parameters. }
    destruct (parseFloat (send_amount req) <=? 0)%float eqn:E2.
    { now rewrite send_invalid_amount. }
    destruct (Js.strict_eq (send_assetType req) "XP") eqn:E3.
    2:{ rewrite send_other_path by assumption.
        destruct (schema _) as [data|]; [ | exact Hinv].
        destruct (Storage.createTransaction _ _ _ _ _) as [[row table]|];
          exact Hinv. }
    rewrite send_xp_path by assumption. cbv zeta.
    destruct (_ <? _)%float eqn:E4; [exact Hinv | ].
    destruct (schema _) as [data|]; [ | exact Hinv].
    destruct (Storage.createTransaction _ _ _ _ _) as [[row table]|];
      [ | exact Hinv].
    destruct (numeric_18_8 db _) as [stored|] eqn:Es; [ | exact Hinv].
    cbn [snd]. unfold wallet_rows at 1. cbn [wallet_balances].
    eapply rows_with; [ | apply updated_rows].
    eapply Hdebit; [ | exact Hok | exact E2 | exact E4 | exact Es].
    unfold send_currentBalance. now apply current_balance.
  - destruct (deposit_rejected req) eqn:E1.
    { now rewrite deposit_invalid_amount. }
    rewrite deposit_path by assumption. cbv zeta.
    unfold deposit_rejected in E1. apply orb_false_elim in E1.
    destruct E1 as [_ E1].
    destruct (numeric_18_8 db _) as [stored|] eqn:Es; [ | exact Hinv].
    assert (Hgoal :
      Forall (fun r => P (balance r))
        (filter (is_address walletAddress) (credited env req w stored))).
    { eapply rows_with; [ | apply credited_rows].
      eapply Hcredit; [ | exact Hok | exact E1 | exact Es].
      unfold deposit_currentBalance. now apply current_balance. }
    destruct (schema _) as [data|]; [ | exact Hgoal].
    destruct (Storage.createTransaction _ _ _ _ _) as [[row table]|];
      exact Hgoal.
Qed.

Lemma handle_not_negative r w :
  balances_not_negative w ->
  balances_not_negative (snd (handle db schema r w)).
Proof.
  apply (handle_keeps not_negative (fun _ => True));
    try reflexivity; [ | | now destruct r].
  - intros a b stored Ha _ Hb Hab Hs.
    apply (numeric_not_negative _ _ Hs).
    now apply FloatFacts.sub_not_negative.
  - intros a b stored Ha _ Hb Hs.
    apply (numeric_not_negative _ _ Hs).
    now apply FloatFacts.add_not_negative.
Qed.

Lemma handle_in_range r w :
  amount_is_number r ->
  balances_in_range w ->
  balances_in_range (snd (handle db schema r w)).
Proof.
  intros Hr.
  apply (handle_keeps in_range (fun b => is_nan b = false));
    try (split; reflexivity); [ | | now destruct r].
  - intros a b stored [Ha Hrange] Hn Hb Hab Hs.
    destruct (HeldFacts.sub_below a b _ Hn Hb Hab Hrange) as [Hsign Hbound].
    apply (numeric_in_range _ _ Hs);
      [exact (HeldFacts.abs_ltb_not_nan _ _ Hbound) | exact Hsign].
  - intros a b stored [Ha Hrange] Hn Hb Hs.
    apply (numeric_in_range _ _ Hs).
    + exact (HeldFacts.add_not_nan _ _ _ Hrange Hn).
    + now apply FloatFacts.add_not_negative.
Qed.

Lemma handle_held r w :
  balances_held w -> balances_held (snd (handle db schema r w)).
Proof.
  apply (handle_keeps (fun b => holds b = true) (fun _ => True));
    try reflexivity; [ | | now destruct r].
  - intros a b stored _ _ _ _ Hs. exact (numeric_holds _ _ Hs).
  - intros a b stored _ _ _ Hs. exact (numeric_holds _ _ Hs).
Qed.

Lemma run_keeps (P : World V -> Prop) (Q : Request V -> Prop) :
  (forall r w, Q r -> P w -> P (snd (handle db schema r w))) ->
  forall rs w, Forall Q rs -> P w -> P (snd (run db schema rs w)).
Proof.
  intros Hstep rs. induction rs as [|r rs IH]; intros w HQ Hinv;
    [exact Hinv | ].
  inversion HQ as [|? ? Hr Hrs]; subst.
  cbn [run]. specialize (IH _ Hrs (Hstep r w Hr Hinv)).
  destruct (run db schema rs _). exact IH.
Qed.

Lemma Forall_True {A : Type} (l : list A) : Forall (fun _ => True) l.
Proof. induction l; constructor; auto. Qed.

Lemma run_not_negative rs w :
  balances_not_negative w ->
  balances_not_negative (snd (run db schema rs w)).
Proof.
  apply (run_keeps balances_not_negative (fun _ => True));
    [ | apply Forall_True].
  intros r w' _. apply handle_not_negative.
Qed.

Lemma run_in_range rs w :
  Forall amount_is_number rs ->
  balances_in_range w ->
  balances_in_range (snd (run db schema rs w)).
Proof. apply run_keeps. apply handle_in_range. Qed.

Lemma run_held rs w :
  balances_held w -> balances_held (snd (run db schema rs w)).
Proof.
  apply (run_keeps balances_held (fun _ => True)); [ | apply Forall_True].
  intros r w' _. apply handle_held.
Qed.

(** *** The stored balance *)

Lemma first_balance (rows : list WalletBalance) b :
  Forall (fun r => balance r = b) rows ->
  rows <> [] ->
  match rows with r :: _ => Some (balance r) | [] => None end = Some b.
Proof.
  intros Hall Hrows. destruct rows as [|r rows]; [now elim Hrows | ].
  f_equal. now inversion Hall.
Qed.

Lemma stored_balance_rows (w : World V) b :
  stored_balance w = Some b ->
  wallet_rows w <> []
  /\ send_currentBalance (wallet_rows w) = b
  /\ deposit_currentBalance (wallet_rows w) = b.
Proof.
  unfold stored_balance. destruct (wallet_rows w) as [|r rows];
    [discriminate | ].
  intros [= <-]. split; [discriminate | ]. split; reflexivity.
Qed.

Lemma no_stored_balance (w : World V) :
  stored_balance w = None -> wallet_rows w = [].
Proof.
  unfold stored_balance. destruct (wallet_rows w); [reflexivity | discriminate].
Qed.

Lemma stored_balance_updated clock stored (w : World V)
    (table : list (Transaction V)) log :
  wallet_rows w <> [] ->
  stored_balance
    {| wallet_balances :=
         map (set_balance clock stored walletAddress) (wallet_balances w);
       transactions := table;
       steps := log |}
  = Some stored.
Proof.
  intros Hrows. unfold stored_balance, wallet_rows. cbn [wallet_balances].
  apply first_balance; [apply updated_rows | ].
  rewrite filter_set_balance. unfold wallet_rows in Hrows.
  destruct (filter _ (wallet_balances w)); [now elim Hrows | discriminate].
Qed.

Lemma stored_balance_credited env req (w : World V) stored
    (table : list (Transaction V)) log :
  stored_balance
    {| wallet_balances := credited env req w stored;
       transactions := table;
       steps := log |}
  = Some stored.
Proof.
  unfold stored_balance, wallet_rows. cbn [wallet_balances].
  destruct (credited_rows env req w stored) as [Hall Hrows].
  now apply first_balance.
Qed.

Lemma stored_delta_written b d stored :
  numeric_18_8 db (apply_delta b d) = Some stored ->
  stored_delta db b d = stored.
Proof. unfold stored_delta. now intros ->. Qed.

(** One request against a stored balance: what is stored afterwards is
    what the column made of the balance with the delta of the request,
    if the request was answered with success, and the balance as it was
    otherwise. *)
Lemma handle_stored_balance r w b :
  stored_balance w = Some b ->
  http_status (response_of db schema r w) <> 500%Z ->
  stored_balance (snd (handle db schema r w))
  = Some (after_delta db b (applied_delta r (response_of db schema r w))).
Proof.
  intros Hb. destruct (stored_balance_rows w b Hb) as (Hrows & Hsend & Hdeposit).
  unfold response_of.
  destruct r as [env req|env req]; cbn [handle].
  - destruct (send_incomplete req) eqn:E1.
    { rewrite send_missing_parameters by exact E1. intros _. exact Hb. }
    destruct (parseFloat (send_amount req) <=? 0)%float eqn:E2.
    { rewrite send_invalid_amount by assumption. intros _. exact Hb. }
    destruct (Js.strict_eq (send_assetType req) "XP") eqn:E3.
    2:{ rewrite send_other_path by assumption.
        destruct (schema _) as [data|]; [ | intros _; exact Hb].
        destruct (Storage.createTransaction _ _ _ _ _) as [[row table]|];
          intros _; exact Hb. }
    rewrite send_xp_path by assumption. cbv zeta. rewrite Hsend.
    destruct (_ <? _)%float; [intros _; exact Hb | ].
    destruct (schema _) as [data|]; [ | intros _; exact Hb].
    destruct (Storage.createTransaction _ _ _ _ _) as [[row table]|];
      [ | intros _; exact Hb].
    destruct (numeric_18_8 db _) as [stored|] eqn:Es; [ | intros _; exact Hb].
    intros _. cbn [fst snd]. rewrite stored_balance_updated by exact Hrows.
    unfold applied_delta. cbn [body http_status Z.eqb Pos.eqb after_delta].
    now rewrite (stored_delta_written b (Debit _) _ Es).
  - destruct (deposit_rejected req) eqn:E1.
    { rewrite deposit_invalid_amount by exact E1. intros _. exact Hb. }
    rewrite deposit_path by exact E1. cbv zeta. rewrite Hdeposit.
    destruct (numeric_18_8 db _) as [stored|] eqn:Es;
      [ | intros Hok; now elim Hok].
    destruct (schema _) as [data|]; [ | intros Hok; now elim Hok].
    destruct (Storage.createTransaction _ _ _ _ _) as [[row table]|];
      [ | intros Hok; now elim Hok].
    intros _. cbn [fst snd]. rewrite stored_balance_credited.
    unfold applied_delta. cbn [body http_status Z.eqb Pos.eqb after_delta].
    now rewrite (stored_delta_written b (Credit _) _ Es).
Qed.

Lemma run_cons (r : Request V) (rs : list (Request V)) (w : World V) :
  run db schema (r :: rs) w
  = (response_of db schema r w
       :: fst (run db schema rs (snd (handle db schema r w))),
     snd (run db schema rs (snd (handle db schema r w)))).
Proof. cbn [run]. now destruct (run db schema rs _). Qed.

Lemma run_stored_balance rs w b :
  stored_balance w = Some b ->
  Forall (fun resp => http_status resp <> 500%Z) (fst (run db schema rs w)) ->
  stored_balance (snd (run db schema rs w))
  = Some (fold_left (stored_delta db)
            (applied_deltas rs (fst (run db schema rs w))) b).
Proof.
  revert w b. induction rs as [|r rs IH]; intros w b Hb Hok;
    [exact Hb | ].
  rewrite run_cons in *. cbn [fst snd applied_deltas] in *.
  inversion Hok as [|? ? Hr Hrest]; subst.
  pose proof (handle_stored_balance r w b Hb Hr) as Hstep.
  rewrite (IH _ _ Hstep Hrest).
  destruct (applied_delta r (response_of db schema r w)); reflexivity.
Qed.

Lemma Forall_prefix {A : Type} (P : A -> Prop) (n : nat) (l : list A) :
  Forall P l -> Forall P (firstn n l).
Proof.
  revert l. induction n as [|n IH]; intros [|x l] Hall; cbn [firstn];
    try constructor; inversion Hall; subst; auto.
Qed.

(** C2 (amended): for every sequence of send and deposit requests
    applied one at a time to a store whose wallet rows hold no balance
    below zero, no stored balance of the wallet is below zero after any
    number of the requests; when the wallet rows hold numbers from 0 up
    to 10^10 and every amount is a number, the stored balances are such
    numbers after any number of the requests; and when the wallet has a
    stored balance b0 at the start and no deposit is answered 500, the
    balance stored after the sequence is b0 with the deltas of the
    requests answered with success applied in order (a completed
    withdrawal subtracts its amount, a completed deposit adds it), each
    result being what the numeric(18,8) column makes of it. *)
Theorem ledger_balance_invariant (rs : list (Request V)) (w : World V) :
  balances_not_negative w ->
  (forall n, balances_not_negative (snd (run db schema (firstn n rs) w)))
  /\ (balances_in_range w ->
      Forall amount_is_number rs ->
      forall n, balances_in_range (snd (run db schema (firstn n rs) w)))
  /\ (forall b0,
        stored_balance w = Some b0 ->
        Forall (fun resp => http_status resp <> 500%Z)
          (fst (run db schema rs w)) ->
        stored_balance (snd (run db schema rs w))
        = Some (fold_left (stored_delta db)
                  (applied_deltas rs (fst (run db schema rs w))) b0)).
Proof.
  intros Hinv. split; [ | split].
  - intros n. now apply run_not_negative.
  - intros Hrange Hnumbers n. apply run_in_range; [ | exact Hrange].
    now apply Forall_prefix.
  - intros b0. apply run_stored_balance.
Qed.

Lemma send_complete (req : SendRequest V) :
  Js.truthy_string (send_toAddress req) = true ->
  truthy (send_amount req) = true ->
  Js.strict_eq (send_assetType req) "XP" = true ->
  send_incomplete req = false.
Proof.
  intros Hto Hamt Hxp. unfold send_incomplete.
  rewrite Hto, Hamt, (strict_eq_XP _ Hxp). reflexivity.
Qed.

(** C3: for every XP send whose amount is positive and exceeds the
    current balance, the handler answers 400 "Insufficient balance for
    withdrawal" with the current balance and the requested amount, and
    neither the wallet_balances table nor the transactions table is
    changed. *)
Theorem send_insufficient_balance (env : Env) (req : SendRequest V)
    (w : World V) :
  Js.truthy_string (send_toAddress req) = true ->
  truthy (send_amount req) = true ->
  Js.strict_eq (send_assetType req) "XP" = true ->
  (0 <? parseFloat (send_amount req))%float = true ->
  (send_currentBalance (wallet_rows w) <? parseFloat (send_amount req))%float
  = true ->
  exists w',
    send db schema env req w
    = (Value (Res 400 (Insufficient "Insufficient balance for withdrawal"
                         (send_currentBalance (wallet_rows w))
                         (send_amount req))),
       w')
    /\ wallet_balances w' = wallet_balances w
    /\ transactions w' = transactions w.
Proof.
  intros Hto Hamt Hxp Hpos Hlt.
  rewrite send_xp_path;
    [ | now apply send_complete | now apply FloatFacts.ltb_zero_leb
      | exact Hxp ].
  cbv zeta. rewrite Hlt. eexists. split; [reflexivity | ]. now split.
Qed.

Lemma numeric_zero : numeric_18_8 db 0 = Some 0%float.
Proof.
  unfold numeric_18_8. cbn. now rewrite round_8_zero.
Qed.

(** C10 (amended): for every XP send whose amount is exactly the
    current balance (positive and finite), the sufficiency test, a
    strict less-than, lets the send through: once its transaction is
    recorded it is answered 200 with new balance 0.  A wallet that has a
    stored balance then has the stored balance 0; a wallet that has no
    row, whose current balance is the default 1.0, still has none. *)
Theorem send_whole_balance (env : Env) (req : SendRequest V) (w : World V)
    (data : InsertTransaction V) (row : Transaction V)
    (table : list (Transaction V)) :
  Js.truthy_string (send_toAddress req) = true ->
  truthy (send_amount req) = true ->
  Js.strict_eq (send_assetType req) "XP" = true ->
  schema (send_transactionData env req) = Some data ->
  Storage.createTransaction db (serial env) (now env) data (transactions w)
  = Some (row, table) ->
  parseFloat (send_amount req) = send_currentBalance (wallet_rows w) ->
  (0 <? parseFloat (send_amount req))%float = true ->
  (parseFloat (send_amount req) <? infinity)%float = true ->
  exists w',
    send db schema env req w
    = (Value (Res 200
                (Completed row ("0x" ++ randomHex env)
                   (send_currentBalance (wallet_rows w)) 0
                   "Withdrawal completed successfully - balance updated")),
       w')
    /\ transactions w' = table
    /\ Forall (fun r => balance r = 0%float) (wallet_rows w')
    /\ stored_balance w'
       = match stored_balance w with
         | Some _ => Some 0%float
         | None => None
         end.
Proof.
  intros Hto Hamt Hxp Hschema Hinsert Heq Hpos Hfin.
  rewrite send_xp_path;
    [ | now apply send_complete | now apply FloatFacts.ltb_zero_leb
      | exact Hxp ].
  cbv zeta. rewrite Hschema, Hinsert, <- Heq, FloatFacts.ltb_irrefl.
  rewrite (FloatFacts.sub_diag _ Hpos Hfin), numeric_zero.
  eexists. split; [reflexivity | ]. split; [reflexivity | ]. split.
  - unfold wallet_rows. cbn [wallet_balances]. apply updated_rows.
  - destruct (stored_balance w) as [b|] eqn:Eb.
    + apply stored_balance_updated. now apply (stored_balance_rows w b Eb).
    + unfold stored_balance, wallet_rows. cbn [wallet_balances].
      rewrite filter_set_balance.
      pose proof (no_stored_balance w Eb) as Hnone.
      unfold wallet_rows in Hnone. now rewrite Hnone.
Qed.

(** C6 (amended): for every successful XP send the steps are, in this
    order: read the current balance, validate sufficiency, record the
    transaction, write the new balance. *)
Theorem send_steps_in_order (env : Env) (req : SendRequest V) (w : World V) :
  Js.strict_eq (send_assetType req) "XP" = true ->
  http_status (response_of db schema (SendReq env req) w) = 200%Z ->
  steps (snd (send db schema env req w))
  = steps w ++
    [ReadBalance; ValidateSufficiency; RecordTransaction;
     WriteBalance (send_currentBalance (wallet_rows w)
                   - parseFloat (send_amount req))%float].
Proof.
  intros Hxp. unfold response_of. cbn [handle].
  destruct (send_incomplete req) eqn:E1.
  { rewrite send_missing_parameters by exact E1. discriminate. }
  destruct (parseFloat (send_amount req) <=? 0)%float eqn:E2.
  { rewrite send_invalid_amount by assumption. discriminate. }
  rewrite send_xp_path by assumption. cbv zeta.
  destruct (_ <? _)%float; [discriminate | ].
  destruct (schema _) as [data|]; [ | discriminate].
  destruct (Storage.createTransaction _ _ _ _ _) as [[row table]|];
    [ | discriminate].
  destruct (numeric_18_8 db _) as [stored|]; [ | discriminate].
  reflexivity.
Qed.

End Facts.

(** *** The handlers on sample requests *)

Import SampleDatabase.

Lemma ltb_distinguishes (a b c : float) :
  (a <? c)%float = true -> (b <? c)%float = false -> a <> b.
Proof. intros Ha Hb ->. congruence. Qed.

Lemma some_distinguishes (a b c : float) :
  (a <? c)%float = true -> (b <? c)%float = false -> Some a <> Some b.
Proof. intros Ha Hb [= Heq]. now apply (ltb_distinguishes a b c). Qed.

(** C2, as stated.  On the empty store a send of 0.5 XP is answered
    with success (the handler takes 1.0 for the missing row and its
    UPDATE finds no row), then a deposit of 1 XP is answered with
    success: the stored balance is then 1, while the applied deltas,
    -0.5 and +1, add up to 0.5.  On the store that holds 1 XP a deposit
    of 0.123456789 XP is answered with success: the column then holds
    1.12345679, while 1 and the delta add up to 1.123456789. *)
Lemma ledger_sum_differs :
  (let rs := [SendReq (sample_env_at 1) (send_xp 0.5);
              DepositReq (sample_env_at 2) (deposit_xp 1)] in
   let result := run sample_db sample_schema rs empty_world in
   map (@http_status _) (fst result) = [200; 200]%Z
   /\ applied_deltas rs (fst result) = [Debit 0.5; Credit 1]
   /\ fold_left apply_delta (applied_deltas rs (fst result)) 0%float
      = 0.5%float
   /\ stored_balance (snd result) = Some 1%float
   /\ stored_balance (snd result)
      <> Some (fold_left apply_delta (applied_deltas rs (fst result)) 0%float))
  /\ (let rs := [DepositReq (sample_env_at 1) (deposit_xp 0.123456789)] in
      let result := run sample_db sample_schema rs (world_with_balance 1) in
      map (@http_status _) (fst result) = [200]%Z
      /\ applied_deltas rs (fst result) = [Credit 0.123456789]
      /\ fold_left apply_delta (applied_deltas rs (fst result)) 1%float
         = 1.123456789%float
      /\ stored_balance (snd result) = Some 1.12345679%float
      /\ stored_balance (snd result)
         <> Some (fold_left apply_delta (applied_deltas rs (fst result))
                    1%float)).
Proof.
  cbv zeta. split.
  - repeat split; try (vm_compute; reflexivity).
    apply not_eq_sym. apply (some_distinguishes _ _ 1%float);
      vm_compute; reflexivity.
  - repeat split; try (vm_compute; reflexivity).
    apply not_eq_sym. apply (some_distinguishes _ _ 1.12345679%float);
      vm_compute; reflexivity.
Qed.


(** C6, as stated, on a send of 2 XP against a stored balance of 3:
    the send succeeds and its steps are read, validate, record, write;
    the transaction is recorded before the balance is written. *)
Lemma send_records_before_writing :
  let w := @world_with_balance JsonField 3 in
  let req := send_xp 2 in
  http_status (response_of sample_db sample_schema (SendReq sample_env req) w)
  = 200%Z
  /\ steps (snd (send sample_db sample_schema sample_env req w))
     = [ReadBalance; ValidateSufficiency; RecordTransaction; WriteBalance 1]
  /\ steps (snd (send sample_db sample_schema sample_env req w))
     <> [ReadBalance; ValidateSufficiency; WriteBalance 1; RecordTransaction].
Proof.
  cbv zeta. split; [vm_compute; reflexivity | ].
  split; [vm_compute; reflexivity | ].
  intros Heq. vm_compute in Heq. discriminate.
Qed.

(** C10, as stated, on the empty store: the current balance of the send
    handler is its default 1.0, a send of exactly 1 XP is answered 200
    with new balance 0, and no balance is stored: the wallet_balances
    table is as empty as before. *)
Lemma send_of_default_balance_stores_nothing :
  let w := @empty_world JsonField in
  parseFloat (Num 1) = send_currentBalance (wallet_rows w)
  /\ (exists row,
        fst (send sample_db sample_schema sample_env (send_xp 1) w)
        = Value (Res 200
                   (Completed row ("0x" ++ randomHex sample_env) 1%float 0%float
                      "Withdrawal completed successfully - balance updated")))
  /\ wallet_balances (snd (send sample_db sample_schema sample_env (send_xp 1) w))
     = []
  /\ stored_balance (snd (send sample_db sample_schema sample_env (send_xp 1) w))
     = None
  /\ stored_balance (snd (send sample_db sample_schema sample_env (send_xp 1) w))
     <> Some 0%float.
Proof.
  cbv zeta. split; [reflexivity | ]. split.
  - eexists. vm_compute. reflexivity.
  - split; [vm_compute; reflexivity | ].
    split; [vm_compute; reflexivity | ].
    intros Heq. vm_compute in Heq. discriminate.
Qed.

Lemma sample_balance_in_range :
  balances_in_range (@world_with_balance JsonField 3).
Proof.
  unfold balances_in_range. cbn.
  constructor; [split; reflexivity | constructor].
Qed.

(** C2 (amended) on the store that holds 3 XP: a deposit of 2, a send of
    4 and a refused send of 5, each under a hash of its own, leave
    1 XP. *)
Lemma ledger_balance_invariant_witness :
  let w := @world_with_balance JsonField 3 in
  let rs := [DepositReq (sample_env_at 1) (deposit_xp 2);
             SendReq (sample_env_at 2) (send_xp 4);
             SendReq (sample_env_at 3) (send_xp 5)] in
  balances_not_negative w
  /\ stored_balance w = Some 3%float
  /\ map (@http_status _) (fst (run sample_db sample_schema rs w))
     = [200; 200; 400]%Z
  /\ balances_not_negative (snd (run sample_db sample_schema (firstn 2 rs) w))
  /\ balances_in_range (snd (run sample_db sample_schema (firstn 2 rs) w))
  /\ stored_balance (snd (run sample_db sample_schema rs w)) = Some 1%float.
Proof.
  cbv zeta.
  assert (Hinv : balances_not_negative (@world_with_balance JsonField 3)).
  { unfold balances_not_negative. cbn. constructor; [reflexivity | constructor]. }
  destruct (ledger_balance_invariant sample_db sample_schema
              [DepositReq (sample_env_at 1) (deposit_xp 2);
               SendReq (sample_env_at 2) (send_xp 4);
               SendReq (sample_env_at 3) (send_xp 5)]
              (world_with_balance 3) Hinv) as (Hpoint & Hrange & Hsum).
  split; [exact Hinv | ]. split; [reflexivity | ].
  split; [vm_compute; reflexivity | ]. split; [apply Hpoint | ].
  split.
  - apply Hrange; [exact sample_balance_in_range | ].
    repeat constructor.
  - rewrite (Hsum 3%float); [vm_compute; reflexivity | reflexivity | ].
    vm_compute. repeat constructor; discriminate.
Defined.

(** C3 at a debit of 5 against a balance of 3: the send is refused, the
    answer reports 3 and 5, and the balance stays at 3. *)
Lemma send_insufficient_balance_witness :
  let w := @world_with_balance JsonField 3 in
  (0 <? 5)%float = true
  /\ (3 <? 5)%float = true
  /\ exists w',
       send sample_db sample_schema sample_env (send_xp 5) w
       = (Value (Res 400 (Insufficient "Insufficient balance for withdrawal"
                            3%float (Num 5))),
          w')
       /\ wallet_balances w' = wallet_balances w
       /\ transactions w' = []
       /\ stored_balance w' = Some 3%float.
Proof.
  cbv zeta. split; [reflexivity | ]. split; [reflexivity | ].
  destruct (send_insufficient_balance sample_db sample_schema sample_env
              (send_xp 5) (world_with_balance 3))
    as (w' & Hsend & Hbalances & Htransactions);
    try reflexivity.
  exists w'. split; [exact Hsend | ]. split; [exact Hbalances | ].
  split; [exact Htransactions | ].
  unfold stored_balance, wallet_rows. rewrite Hbalances. reflexivity.
Defined.

(** C10 (amended) at a debit of 3 against a balance of 3: the send
    succeeds, its transaction is the one row of the table and the
    stored balance is 0. *)
Lemma send_whole_balance_witness :
  let w := @world_with_balance JsonField 3 in
  parseFloat (Num 3) = send_currentBalance (wallet_rows w)
  /\ exists row w',
       send sample_db sample_schema sample_env (send_xp 3) w
       = (Value (Res 200
                   (Completed row ("0x" ++ randomHex sample_env) 3%float 0%float
                      "Withdrawal completed successfully - balance updated")),
          w')
       /\ transactions w' = [row]
       /\ amount row = "3.00000000"%string
       /\ stored_balance w' = Some 0%float.
Proof.
  cbv zeta. split; [reflexivity | ].
  pose (data :=
    {| new_userId := 1%Z;
       new_fromAddress := walletAddress;
       new_toAddress := "0xfeed"%string;
       new_assetType := "XP"%string;
       new_amount := AsString (Num 3);
       new_fee := None;
       new_txHash := ("0x" ++ randomHex sample_env)%string;
       new_blockNumber := None;
       new_status := Some "completed"%string;
       new_transactionType := "send"%string;
       new_merchantInfo := None |}).
  destruct (Storage.createTransaction sample_db (serial sample_env)
              (now sample_env) data (@nil (Transaction JsonField)))
    as [[row table]|] eqn:Einsert; [ | vm_compute in Einsert; discriminate].
  destruct (send_whole_balance sample_db sample_schema sample_env (send_xp 3)
              (world_with_balance 3) data row table)
    as (w' & Hsend & Htable & _ & Hstored);
    try reflexivity; [exact Einsert | ].
  exists row, w'. split; [exact Hsend | ].
  vm_compute in Einsert. injection Einsert as <- <-.
  split; [exact Htable | ]. split; [reflexivity | exact Hstored].
Defined.

(** C6 (amended) at a send of 2 XP against a balance of 3. *)
Lemma send_steps_in_order_witness :
  let w := @world_with_balance JsonField 3 in
  http_status (response_of sample_db sample_schema
                 (SendReq sample_env (send_xp 2)) w)
  = 200%Z
  /\ steps (snd (send sample_db sample_schema sample_env (send_xp 2) w))
     = [ReadBalance; ValidateSufficiency; RecordTransaction; WriteBalance 1].
Proof.
  cbv zeta. split; [vm_compute; reflexivity | ].
  rewrite (send_steps_in_order sample_db sample_schema sample_env (send_xp 2)
             (world_with_balance 3)).
  - vm_compute. reflexivity.
  - reflexivity.
  - vm_compute. reflexivity.
Defined.

End LedgerFacts.

(** ** server/storage.ts *)

Module StorageFacts.
Import Schema Postgres Storage Routes SampleDatabase.
Local Open Scope string_scope.

(** What an INSERT that Postgres accepts leaves: the returned row at
    the end of the table, under the user, the hash and the time of the
    call. *)
Lemma createTransaction_appends {V : Type} (db : Database V) (serial now : Z)
    (data : InsertTransaction V) (table table' : list (Transaction V))
    (row : Transaction V) :
  Storage.createTransaction db serial now data table = Some (row, table') ->
  table' = (table ++ [row])%list
  /\ id row = serial
  /\ userId row = new_userId data
  /\ txHash row = new_txHash data
  /\ createdAt row = Some now
  /\ has_user db (new_userId data) = true
  /\ Forall (fun t => txHash t <> new_txHash data) table.
Proof.
  unfold Storage.createTransaction.
  destruct (has_user db (new_userId data)); cbn [negb]; [ | discriminate].
  destruct (existsb _ table) eqn:Ehash; [discriminate | ].
  destruct (negb _); [discriminate | ].
  destruct (numeric_text db (new_amount data)) as [amount_text|];
    [ | discriminate].
  destruct (match new_fee data with
            | Some f => numeric_text db f
            | None => Some "0.00000000"
            end) as [fee_text|]; [ | discriminate].
  intros [= <- <-]. repeat split; try reflexivity.
  apply Forall_forall. intros t Hin Heq.
  assert (Hfound :
    existsb (fun t => String.eqb (txHash t) (new_txHash data)) table = true).
  { apply existsb_exists. exists t. split; [exact Hin | ].
    now apply String.eqb_eq. }
  congruence.
Qed.


(** C7, as stated, on the transactions of two deposits of user 1, made
    one after the other on the empty store, each under a hash of its
    own: a database that returns the rows of a SELECT as the table holds
    them lists the older one first, which is not most-recent-first. *)
Lemma listing_is_oldest_first :
  let w :=
    snd (run sample_db sample_schema
           [DepositReq (sample_env_at 1) (deposit_xp 5);
            DepositReq (sample_env_at 2) (deposit_xp 7)] empty_world) in
  exists rows,
    getTransactionsByUserId sample_db 1 (transactions w) = Some rows
    /\ map (@createdAt _) rows = [Some 1700000001; Some 1700000002]%Z
    /\ map (@amount _) rows = ["5.00000000"; "7.00000000"]
    /\ ~ most_recent_first rows.
Proof.
  cbv zeta. eexists. split; [vm_compute; reflexivity | ].
  split; [reflexivity | ]. split; [reflexivity | ].
  cbn. intros [Hfirst _]. inversion Hfirst as [|? ? Hle _]. cbn in Hle. lia.
Qed.

Lemma Permutation_filter {A : Type} (p : A -> bool) (l l' : list A) :
  Permutation l l' -> Permutation (filter p l) (filter p l').
Proof.
  induction 1 as [ | x l l' _ IH | x y l | l l' l'' _ IH1 _ IH2 ].
  - constructor.
  - cbn [filter]. destruct (p x); [now constructor | exact IH].
  - cbn [filter]. destruct (p x), (p y);
      try apply Permutation_refl. apply perm_swap.
  - now apply Permutation_trans with (filter p l').
Qed.

(** C7 (amended): for every user id that is a 32-bit integer, the
    listing is a finite sequence that holds exactly the transactions of
    that user, each as often as the table holds it, in the order the
    database returns them: no ordering by time is applied.  Listing
    again after an INSERT returns the same rows and, if it is of that
    user, the new one.  For any other user id the SELECT raises an
    error. *)
Theorem listing_holds_user_rows {V : Type} (db : Database V) (owner : Z)
    (table : list (Transaction V)) :
  (int4 owner = false -> getTransactionsByUserId db owner table = None)
  /\ (int4 owner = true ->
      exists rows,
        getTransactionsByUserId db owner table = Some rows
        /\ Permutation rows (filter (fun t => Z.eqb (userId t) owner) table)
        /\ (forall t, In t rows <-> In t table /\ userId t = owner)
        /\ (List.length rows <= List.length table)%nat
        /\ (forall serial now data row table',
              Storage.createTransaction db serial now data table = Some (row, table') ->
              exists rows',
                getTransactionsByUserId db owner table' = Some rows'
                /\ Permutation rows'
                     (if Z.eqb (userId row) owner then rows ++ [row]
                      else rows)%list)).
Proof.
  unfold getTransactionsByUserId. split; [now intros -> | ]. intros ->.
  eexists. split; [reflexivity | ].
  pose proof (scan_permutation db
                (filter (fun t => Z.eqb (userId t) owner) table)) as Hscan.
  split; [exact Hscan | ]. split; [ | split].
  - intros t. split.
    + intros Hin. apply (Permutation_in _ Hscan) in Hin.
      apply filter_In in Hin. now rewrite Z.eqb_eq in Hin.
    + intros [Hin Howner].
      apply (Permutation_in _ (Permutation_sym Hscan)).
      apply filter_In. now rewrite Z.eqb_eq.
  - rewrite (Permutation_length Hscan). apply filter_length_le.
  - intros serial now data row table' Hinsert.
    destruct (createTransaction_appends _ _ _ _ _ _ _ Hinsert) as (-> & _).
    eexists. split; [reflexivity | ].
    eapply Permutation_trans; [apply scan_permutation | ].
    rewrite filter_app. cbn [filter].
    destruct (Z.eqb (userId row) owner).
    + apply Permutation_app_tail. now apply Permutation_sym.
    + rewrite app_nil_r. now apply Permutation_sym.
Qed.


Lemma processTaxRefund_in_range (clock refund : Z) (action : string)
    (table : list TaxRefund) :
  int4 refund = true ->
  processTaxRefund clock (Some refund) action table
  = Some (hd_error
            (map (decided clock
                    (if String.eqb action "approve" then "approved"
                     else "rejected"))
               (filter (fun r => Z.eqb (refundId r) refund) table)),
          map (fun r =>
                 if Z.eqb (refundId r) refund
                 then decided clock
                        (if String.eqb action "approve" then "approved"
                         else "rejected") r
                 else r) table).
Proof. unfold processTaxRefund. now intros ->. Qed.

Lemma processTaxRefund_refused (clock : Z) (parsedId : option Z)
    (action : string) (table : list TaxRefund) :
  match parsedId with
  | Some refund => int4 refund = false
  | None => True
  end ->
  processTaxRefund clock parsedId action table = None.
Proof.
  unfold processTaxRefund. destruct parsedId as [refund|]; [ | reflexivity].
  now intros ->.
Qed.

Lemma unknown_refund (clock refund : Z) (status : string)
    (table : list TaxRefund) :
  (forall r, In r table -> refundId r <> refund) ->
  filter (fun r => Z.eqb (refundId r) refund) table = []
  /\ map (fun r => if Z.eqb (refundId r) refund then decided clock status r
                   else r) table
     = table.
Proof.
  intros Hnone. induction table as [|r table IH]; [now split | ].
  cbn [filter map].
  destruct (Z.eqb_spec (refundId r) refund) as [Heq|Hne].
  - elim (Hnone r); [now left | exact Heq].
  - destruct IH as [Hfilter Hmap].
    { intros r' Hin. apply Hnone. now right. }
    split; [exact Hfilter | now rewrite Hmap].
Qed.

Lemma known_refund (clock refund : Z) (status : string)
    (table : list TaxRefund) (r : TaxRefund) :
  In r table -> refundId r = refund ->
  exists r',
    hd_error (map (decided clock status)
                (filter (fun r => Z.eqb (refundId r) refund) table))
    = Some r'
    /\ In r' (map (fun r => if Z.eqb (refundId r) refund
                            then decided clock status r else r) table)
    /\ refundId r' = refund
    /\ refundStatus r' = status
    /\ processedAt r' = Some clock.
Proof.
  intros Hin Hid.
  assert (Hfound : In r (filter (fun r => Z.eqb (refundId r) refund) table)).
  { apply filter_In. split; [exact Hin | now apply Z.eqb_eq]. }
  destruct (filter _ table) as [|r0 rows] eqn:E; [contradiction | ].
  assert (Hr0 : In r0 (filter (fun r => Z.eqb (refundId r) refund) table))
    by (rewrite E; now left).
  apply filter_In in Hr0. destruct Hr0 as [Hin0 Hr0].
  cbn [map hd_error]. eexists. split; [reflexivity | ]. split.
  - apply in_map_iff. exists r0. split; [ | exact Hin0]. now rewrite Hr0.
  - apply Z.eqb_eq in Hr0. cbn. now repeat split.
Qed.



(** C4, as stated, on a table that holds the pending refund 1:
    processing the unknown id 2 is answered 200 with no row, and after
    refund 1 was approved a second call on it is answered 200 as well
    and stores the status that call decides. *)
Lemma process_unknown_and_repeated :
  process_handler 10 (Some 2%Z) "approve" [pending_refund 1]
  = (Res 200 (Processed None), [pending_refund 1])
  /\ (let approved :=
        snd (process_handler 10 (Some 1%Z) "approve" [pending_refund 1]) in
      map refundStatus approved = ["approved"]
      /\ exists r table,
           process_handler 20 (Some 1%Z) "reject" approved
           = (Res 200 (Processed (Some r)), table)
           /\ refundStatus r = "rejected"
           /\ map refundStatus table = ["rejected"]).
Proof.
  split; [reflexivity | ]. cbv zeta. split; [reflexivity | ].
  eexists _, _. split; [reflexivity | ]. split; reflexivity.
Qed.

(** C4 (amended): process(id, action) fails only when the id is not a
    32-bit integer: the UPDATE then raises an error, the route answers
    400 "Failed to process tax refund" and the table is unchanged.  For
    every other id it is answered 200 and the table is the old one with
    status and processedAt set in the rows of that id: when the id is
    unknown the answer carries no row and the table is unchanged; when
    the id is known the answer carries the row, which is in the table,
    with its status and processedAt set, whether or not the refund was
    pending, so that a second call on the same id is answered in the
    same way.  A request that the middleware rejects changes
    nothing. *)
Theorem process_always_answers (clock : Z) (parsedId : option Z)
    (action : string) (table : list TaxRefund) :
  exists resp table',
    process_handler clock parsedId action table = (resp, table')
    /\ (match parsedId with
        | Some refund => int4 refund = false
        | None => True
        end ->
        resp = Res 400 (Refused "Failed to process tax refund")
        /\ table' = table)
    /\ (forall refund,
          parsedId = Some refund -> int4 refund = true ->
          table'
          = map (fun r =>
                   if Z.eqb (refundId r) refund
                   then decided clock
                          (if String.eqb action "approve" then "approved"
                           else "rejected") r
                   else r) table
          /\ ((forall r, In r table -> refundId r <> refund) ->
              resp = Res 200 (Processed None) /\ table' = table)
          /\ (forall r, In r table -> refundId r = refund ->
              (exists r',
                 resp = Res 200 (Processed (Some r'))
                 /\ In r' table'
                 /\ refundStatus r'
                    = (if String.eqb action "approve" then "approved"
                       else "rejected")
                 /\ processedAt r' = Some clock)
              /\ forall clock2 action2,
                   exists r2 table2,
                     process_handler clock2 (Some refund) action2 table'
                     = (Res 200 (Processed (Some r2)), table2)
                     /\ In r2 table2
                     /\ refundStatus r2
                        = (if String.eqb action2 "approve" then "approved"
                           else "rejected")
                     /\ processedAt r2 = Some clock2))
    /\ (forall answer,
          process_route (Auth.Rejected answer) clock parsedId action table
          = (Res (http_status answer) (Refused (body answer)), table)).
Proof.
  unfold process_handler.
  destruct (processTaxRefund clock parsedId action table)
    as [[row table']|] eqn:E.
  - exists (Res 200 (Processed row)), table'. split; [reflexivity | ].
    split; [ | split; [ | reflexivity]].
    { intros Hrefused.
      rewrite (processTaxRefund_refused _ _ _ _ Hrefused) in E.
      discriminate. }
    intros refund -> Hrange.
    rewrite processTaxRefund_in_range in E by exact Hrange.
    injection E as <- <-. split; [reflexivity | ]. split.
    + intros Hnone.
      destruct (unknown_refund clock refund
                  (if String.eqb action "approve" then "approved"
                   else "rejected") table Hnone) as [-> ->].
      now split.
    + intros r Hin Hid.
      destruct (known_refund clock refund
                  (if String.eqb action "approve" then "approved"
                   else "rejected") table r Hin Hid)
        as (r' & -> & Hin' & Hid' & Hstatus & Hat).
      split; [exists r'; now repeat split | ].
      intros clock2 action2.
      rewrite processTaxRefund_in_range by exact Hrange.
      destruct (known_refund clock2 refund
                  (if String.eqb action2 "approve" then "approved"
                   else "rejected") _ r' Hin' Hid')
        as (r2 & -> & Hin2 & _ & Hstatus2 & Hat2).
      exists r2. eexists. split; [reflexivity | ]. now repeat split.
  - exists (Res 400 (Refused "Failed to process tax refund")), table.
    split; [reflexivity | ]. split; [now split | ].
    split; [ | reflexivity].
    intros refund -> Hrange.
    rewrite processTaxRefund_in_range in E by exact Hrange. discriminate.
Qed.

(** C4 (amended) on the table that holds the pending refund 1: it is
    approved by a first call and rejected by a second one, the unknown
    id 2 is answered with no row, and the id 99999999999 is answered
    400. *)
Lemma process_always_answers_witness :
  (exists r table,
     process_handler 10 (Some 1%Z) "approve" [pending_refund 1]
     = (Res 200 (Processed (Some r)), table)
     /\ refundStatus r = "approved"
     /\ exists r2 table2,
          process_handler 20 (Some 1%Z) "reject" table
          = (Res 200 (Processed (Some r2)), table2)
          /\ refundStatus r2 = "rejected")
  /\ (exists table,
        process_handler 10 (Some 2%Z) "approve" [pending_refund 1]
        = (Res 200 (Processed None), table)
        /\ table = [pending_refund 1])
  /\ process_handler 10 (Some 99999999999%Z) "approve" [pending_refund 1]
     = (Res 400 (Refused "Failed to process tax refund"), [pending_refund 1]).
Proof.
  split; [ | split].
  - destruct (process_always_answers 10 (Some 1%Z) "approve" [pending_refund 1])
      as (resp & table & Hanswer & _ & Hknown & _).
    destruct (Hknown 1%Z eq_refl eq_refl) as (_ & _ & Hrow).
    destruct (Hrow (pending_refund 1))
      as [(r & Hresp & _ & Hstatus & _) Hagain];
      [now left | reflexivity | ].
    destruct (Hagain 20%Z "reject")
      as (r2 & table2 & Hsecond & _ & Hstatus2 & _).
    exists r, table. subst resp. split; [exact Hanswer | ].
    split; [exact Hstatus | ]. exists r2, table2. now split.
  - destruct (process_always_answers 10 (Some 2%Z) "approve" [pending_refund 1])
      as (resp & table & Hanswer & _ & Hknown & _).
    destruct (Hknown 2%Z eq_refl eq_refl) as (_ & Hunknown & _).
    destruct Hunknown as [Hresp Htable].
    { intros r [<- | []]. discriminate. }
    exists table. subst resp. now split.
  - destruct (process_always_answers 10 (Some 99999999999%Z) "approve"
                [pending_refund 1])
      as (resp & table & Hanswer & Hrefused & _).
    destruct Hrefused as [-> ->]; [reflexivity | exact Hanswer].
Defined.

(** C7 (amended) on the transactions of two deposits of user 1: a
    database that returns the rows as the table holds them lists the
    first, then the second; one that returns them the other way round
    lists the second, then the first. *)
Lemma listing_holds_user_rows_witness :
  let w :=
    snd (run sample_db sample_schema
           [DepositReq (sample_env_at 1) (deposit_xp 5);
            DepositReq (sample_env_at 2) (deposit_xp 7)] empty_world) in
  (exists rows,
     getTransactionsByUserId sample_db 1 (transactions w) = Some rows
     /\ Permutation rows (transactions w)
     /\ map (@id _) rows = [1; 2]%Z)
  /\ (exists rows,
        getTransactionsByUserId reversing_db 1 (transactions w) = Some rows
        /\ Permutation rows (transactions w)
        /\ map (@id _) rows = [2; 1]%Z).
Proof.
  cbv zeta. split.
  - destruct (listing_holds_user_rows sample_db 1
                (transactions
                   (snd (run sample_db sample_schema
                           [DepositReq (sample_env_at 1) (deposit_xp 5);
                            DepositReq (sample_env_at 2) (deposit_xp 7)]
                           empty_world))))
      as (_ & Hlisting).
    destruct (Hlisting eq_refl) as (rows & Hrows & Hperm & _).
    exists rows. split; [exact Hrows | ]. split; [exact Hperm | ].
    vm_compute in Hrows. injection Hrows as <-. reflexivity.
  - destruct (listing_holds_user_rows reversing_db 1
                (transactions
                   (snd (run sample_db sample_schema
                           [DepositReq (sample_env_at 1) (deposit_xp 5);
                            DepositReq (sample_env_at 2) (deposit_xp 7)]
                           empty_world))))
      as (_ & Hlisting).
    destruct (Hlisting eq_refl) as (rows & Hrows & Hperm & _).
    exists rows. split; [exact Hrows | ]. split; [exact Hperm | ].
    vm_compute in Hrows. injection Hrows as <-. reflexivity.
Defined.
End StorageFacts.
(* ================================================================== *)
(** * Part III.  The rest of the handlers                               *)
(* ================================================================== *)

(** ** More binary64 arithmetic *)

(** ** The authentication middleware *)

Module AuthFacts.
Import Auth.
Local Open Scope string_scope.

Lemma split_space_single s : no_space s = true -> split_space s = [s].
Proof.
  induction s as [|c rest IH]; [reflexivity | ].
  cbn [no_space split_space]. intros H. apply andb_prop in H.
  destruct H as [Hc Hrest]. apply negb_true_iff in Hc. rewrite Hc.
  now rewrite (IH Hrest).
Qed.

Lemma split_space_scheme scheme rest :
  no_space scheme = true ->
  split_space (scheme ++ " " ++ rest) = scheme :: split_space rest.
Proof.
  induction scheme as [|c scheme IH]; intros H.
  - reflexivity.
  - cbn [no_space] in H. apply andb_prop in H. destruct H as [Hc Hs].
    apply negb_true_iff in Hc. cbn [append split_space]. rewrite Hc.
    cbn [append] in IH. now rewrite (IH Hs).
Qed.

Lemma header_not_empty scheme rest :
  String.eqb (scheme ++ " " ++ rest) "" = false.
Proof. destruct scheme; reflexivity. Qed.

(** X1: on a path that is not open, a header made of any word, a space
    and a token is accepted exactly when the token verifies; the word
    before the token, Bearer or not, plays no part. *)
Theorem token_alone_decides (jwt_verify : string -> option AuthUser)
    (path scheme token : string) :
  open_path path = false ->
  no_space scheme = true ->
  no_space token = true ->
  token <> "" ->
  authenticateToken jwt_verify path (Some (scheme ++ " " ++ token))
  = match jwt_verify token with
    | Some user => Next user
    | None => Rejected (Res 403 "Invalid token")
    end.
Proof.
  intros Hpath Hscheme Htoken Hnonempty.
  unfold authenticateToken, header_token. rewrite Hpath, header_not_empty.
  rewrite (split_space_scheme _ _ Hscheme), (split_space_single _ Htoken).
  cbn [nth_error Js.truthy_string]. apply String.eqb_neq in Hnonempty.
  rewrite Hnonempty. reflexivity.
Qed.

(** X2: on a path that is not open, a request goes on to its handler
    only with a user that [jwt.verify] returned for the second piece of
    its Authorization header. *)
Theorem no_passage_without_verified_token
    (jwt_verify : string -> option AuthUser) (path : string)
    (authorization : option string) (user : AuthUser) :
  open_path path = false ->
  authenticateToken jwt_verify path authorization = Next user ->
  exists header token,
    authorization = Some header
    /\ nth_error (split_space header) 1 = Some token
    /\ token <> ""
    /\ jwt_verify token = Some user.
Proof.
  intros Hpath. unfold authenticateToken. rewrite Hpath.
  destruct (header_token authorization) as [token|] eqn:Etoken;
    cbn [Js.truthy_string negb]; [ | discriminate].
  destruct (String.eqb_spec token "") as [Hempty|Hfull];
    cbn [negb]; [discriminate | ].
  destruct (jwt_verify token) as [u|] eqn:Everify; [ | discriminate].
  intros [= <-]. unfold header_token in Etoken.
  destruct authorization as [header|]; [ | discriminate].
  destruct (String.eqb_spec header "") as [Hheader|_].
  - injection Etoken as <-. contradiction.
  - now exists header, token.
Qed.

(** X3: on a path that is not open, a request with no Authorization
    header, an empty one, or one without a space is answered 401, and
    the verifier is not consulted: a bare token is refused even when it
    would verify. *)
Theorem bare_token_refused (jwt_verify : string -> option AuthUser)
    (path : string) (authorization : option string) :
  open_path path = false ->
  match authorization with
  | Some header => no_space header = true
  | None => True
  end ->
  authenticateToken jwt_verify path authorization
  = Rejected (Res 401 "Access token required").
Proof.
  intros Hpath Hbare. unfold authenticateToken, header_token. rewrite Hpath.
  destruct authorization as [header|]; [ | reflexivity].
  destruct (String.eqb_spec header "") as [->|_]; [reflexivity | ].
  rewrite (split_space_single _ Hbare). reflexivity.
Qed.

(** X1 at the path /api/assets: the token abc passes behind the word
    Token, and the token abd is refused behind the word Bearer. *)
Lemma token_alone_decides_witness :
  authenticateToken sample_verify "/api/assets" (Some "Token abc")
  = Next sample_user
  /\ authenticateToken sample_verify "/api/assets" (Some "Bearer abd")
     = Rejected (Res 403 "Invalid token").
Proof.
  split.
  - exact (token_alone_decides sample_verify "/api/assets" "Token" "abc"
             eq_refl eq_refl eq_refl ltac:(discriminate)).
  - exact (token_alone_decides sample_verify "/api/assets" "Bearer" "abd"
             eq_refl eq_refl eq_refl ltac:(discriminate)).
Defined.

(** X2 at the header Bearer abc on the path /api/assets. *)
Lemma no_passage_without_verified_token_witness :
  exists header token,
    Some "Bearer abc" = Some header
    /\ nth_error (split_space header) 1 = Some token
    /\ token <> ""
    /\ sample_verify token = Some sample_user.
Proof.
  exact (no_passage_without_verified_token sample_verify "/api/assets"
           (Some "Bearer abc") sample_user eq_refl eq_refl).
Defined.

(** X3 at the header abc on the path /api/assets: the token that would
    verify, sent without a word before it, is answered 401. *)
Lemma bare_token_refused_witness :
  sample_verify "abc" = Some sample_user
  /\ authenticateToken sample_verify "/api/assets" (Some "abc")
     = Rejected (Res 401 "Access token required").
Proof.
  split; [reflexivity | ].
  exact (bare_token_refused sample_verify "/api/assets" (Some "abc")
           eq_refl eq_refl).
Defined.
End AuthFacts.

(** ** shared/locales.ts *)

Module LocaleFacts.
Import Locales.
Local Open Scope string_scope.

Lemma found_by_both_keys :
  Forall (fun locale =>
            getLocaleByCode (code locale) = Some locale
            /\ getLocaleByCountryCode (countryCode locale) = Some locale)
    supportedLocales.
Proof. repeat constructor. Qed.

(** X4: every supported locale is found by its own code and by its own
    country code, so no two entries share either; a lookup returns an
    entry of the list with the key asked for, or nothing when no entry
    has that key; and the default locale is in the list. *)
Theorem locale_lookup (c : string) :
  Forall (fun locale =>
            getLocaleByCode (code locale) = Some locale
            /\ getLocaleByCountryCode (countryCode locale) = Some locale)
    supportedLocales
  /\ match getLocaleByCode c with
     | Some locale => In locale supportedLocales /\ code locale = c
     | None => Forall (fun locale => code locale <> c) supportedLocales
     end
  /\ match getLocaleByCountryCode c with
     | Some locale => In locale supportedLocales /\ countryCode locale = c
     | None => Forall (fun locale => countryCode locale <> c) supportedLocales
     end
  /\ exists korean, getLocaleByCode defaultLocale = Some korean
                    /\ countryCode korean = "KR".
Proof.
  split; [exact found_by_both_keys | ]. split; [ | split].
  - unfold getLocaleByCode.
    destruct (find _ supportedLocales) as [locale|] eqn:E.
    + apply find_some in E. destruct E as [Hin Heq].
      apply String.eqb_eq in Heq. now split.
    + apply Forall_forall. intros locale Hin.
      apply (find_none _ _ E) in Hin. now apply String.eqb_neq.
  - unfold getLocaleByCountryCode.
    destruct (find _ supportedLocales) as [locale|] eqn:E.
    + apply find_some in E. destruct E as [Hin Heq].
      apply String.eqb_eq in Heq. now split.
    + apply Forall_forall. intros locale Hin.
      apply (find_none _ _ E) in Hin. now apply String.eqb_neq.
  - eexists. split; reflexivity.
Qed.
End LocaleFacts.

(** ** The tax forms: estimate and submit *)

Module TaxFormFacts.
Import Tax Routes Refunds FloatFacts NumberFacts.
Local Open Scope float_scope.



Lemma or_zero_truthy x : Js.truthy_number x = true -> Js.or_zero x = x.
Proof. unfold Js.or_zero. now intros ->. Qed.

(** X5: whatever the request holds, the score of the estimate is one of
    70, 75, 80, 85 and 90; the clamp to the range 0..100 never acts. *)
Theorem eligibility_score_range (V : Type) (JV : JsValue V)
    (grossIncome taxPaid deductions : V) (refundType : option string) :
  In (eligibilityScore (estimate grossIncome taxPaid deductions refundType))
    [70; 75; 80; 85; 90].
Proof.
  cbn [estimate eligibilityScore]. unfold eligibility.
  destruct (100000000 <? _); destruct (_ <? _);
    destruct (Js.strict_eq refundType "income_tax");
    vm_compute; tauto.
Qed.


(** X7: when the gross income and the tax paid of a complete request are
    numbers other than 0, the amount the estimate shows is the amount
    the submit handler computes for the same fields, rounded to the
    nearest integer. *)
Theorem estimate_rounds_submitted_amount (V : Type) (JV : JsValue V)
    (parseInt : V -> option Z) (clock : Z) (req : SubmitRequest V)
    (refundType : option string) :
  Js.truthy_string (submit_refundType req) = true ->
  truthy (submit_taxYear req) = true ->
  truthy (submit_grossIncome req) = true ->
  truthy (submit_taxPaid req) = true ->
  Js.truthy_string (submit_bankAccount req) = true ->
  Js.truthy_number (parseFloat (submit_grossIncome req)) = true ->
  Js.truthy_number (parseFloat (submit_taxPaid req)) = true ->
  exists data,
    submit_refundData parseInt clock req = inr data
    /\ data_status data = "pending"%string
    /\ estimatedAmount
         (estimate (submit_grossIncome req) (submit_taxPaid req)
            (submit_deductions req) refundType)
       = Js.Math_round (data_amount data).
Proof.
  intros Htype Hyear Hgross Hpaid Hbank Hincome Hnumber.
  unfold submit_refundData. rewrite Htype, Hyear, Hgross, Hpaid, Hbank.
  cbn [negb orb]. eexists. split; [reflexivity | ]. split; [reflexivity | ].
  cbn [estimate estimatedAmount data_amount].
  now rewrite (or_zero_truthy _ Hincome), (or_zero_truthy _ Hnumber).
Qed.

(** X8: when the gross income of a complete request is not a number, the
    submit handler hands the store a refund whose gross income and
    amount are both NaN. *)
Theorem submit_of_non_numeric_income (V : Type) (JV : JsValue V)
    (parseInt : V -> option Z) (clock : Z) (req : SubmitRequest V) :
  Js.truthy_string (submit_refundType req) = true ->
  truthy (submit_taxYear req) = true ->
  truthy (submit_grossIncome req) = true ->
  truthy (submit_taxPaid req) = true ->
  Js.truthy_string (submit_bankAccount req) = true ->
  is_nan (parseFloat (submit_grossIncome req)) = true ->
  exists data,
    submit_refundData parseInt clock req = inr data
    /\ data_grossIncome data = nan
    /\ data_amount data = nan.
Proof.
  intros Htype Hyear Hgross Hpaid Hbank Hnan. apply is_nan_true in Hnan.
  unfold submit_refundData. rewrite Htype, Hyear, Hgross, Hpaid, Hbank.
  cbn [negb orb]. eexists. split; [reflexivity | ].
  cbn [data_grossIncome data_amount]. split; [exact Hnan | ].
  rewrite Hnan, sub_nan_l.
  replace (Js.Math_max 0 nan) with nan by reflexivity.
  rewrite mul_nan_l, sub_nan_r. unfold Js.Math_max.
  replace (is_nan nan) with true by reflexivity.
  now rewrite orb_true_r.
Qed.

(** X7 at a gross income of 10,000,000 and a tax paid of 1,000,000.6:
    the submitted amount is 400,000.6 and the estimate shows 400,001. *)
Lemma estimate_rounds_submitted_amount_witness :
  exists data,
    submit_refundData sample_parseInt 1700000000
      (sample_submit (Json (Num 10000000)) (Json (Num 1000000.6)))
    = inr data
    /\ data_status data = "pending"%string
    /\ estimatedAmount
         (estimate (Json (Num 10000000)) (Json (Num 1000000.6)) (Json Absent)
            (Some "income_tax"%string))
       = Js.Math_round (data_amount data).
Proof.
  exact (estimate_rounds_submitted_amount FormField _ sample_parseInt
           1700000000
           (sample_submit (Json (Num 10000000)) (Json (Num 1000000.6)))
           (Some "income_tax"%string)
           eq_refl eq_refl eq_refl eq_refl eq_refl eq_refl eq_refl).
Defined.

(** X8 at a form whose gross income is a text. *)
Lemma submit_of_non_numeric_income_witness :
  exists data,
    submit_refundData sample_parseInt 1700000000
      (sample_submit Letters (Json (Num 1000000)))
    = inr data
    /\ data_grossIncome data = nan
    /\ data_amount data = nan.
Proof.
  exact (submit_of_non_numeric_income FormField _ sample_parseInt 1700000000
           (sample_submit Letters (Json (Num 1000000)))
           eq_refl eq_refl eq_refl eq_refl eq_refl eq_refl).
Defined.
End TaxFormFacts.

(** ** The refund pages *)

Module RefundPageFacts.
Import Schema Postgres Storage Routes Refunds SampleDatabase.
Local Open Scope string_scope.

Lemma decided_not_pending (action : string) :
  let decided := if String.eqb action "approve" then "approved" else "rejected" in
  String.eqb decided "pending" = false /\ String.eqb decided "completed" = false.
Proof. cbv zeta. destruct (String.eqb action "approve"); split; reflexivity. Qed.

(** The refunds of user 1, as the status page gets them. *)
Lemma refunds_of_user_1 {V : Type} (db : Database V) (table : list TaxRefund) :
  exists refunds,
    getTaxRefundsByUserId db 1 table = Some refunds
    /\ forall r, In r refunds <-> In r table /\ refundUserId r = 1%Z.
Proof.
  unfold getTaxRefundsByUserId. cbn [int4 Z.leb Z.compare andb].
  eexists. split; [reflexivity | ].
  pose proof (scan_permutation db
                (filter (fun r => Z.eqb (refundUserId r) 1) table)) as Hscan.
  intros r. split.
  - intros Hin. apply (Permutation_in _ Hscan) in Hin.
    apply filter_In in Hin. now rewrite Z.eqb_eq in Hin.
  - intros [Hin Howner]. apply (Permutation_in _ (Permutation_sym Hscan)).
    apply filter_In. now rewrite Z.eqb_eq.
Qed.

(** Every row of an id is a decided one after the UPDATE. *)
Lemma rows_after_process (clock refundNo : Z) (status : string)
    (table : list TaxRefund) (r' : TaxRefund) :
  In r' (map (fun r => if Z.eqb (refundId r) refundNo
                       then decided clock status r else r) table) ->
  refundId r' = refundNo ->
  refundStatus r' = status /\ processedAt r' = Some clock.
Proof.
  intros Hin Hid. apply in_map_iff in Hin. destruct Hin as (r & <- & _).
  destruct (Z.eqb_spec (refundId r) refundNo) as [Heq|Hne].
  - now split.
  - contradiction.
Qed.

(** X10: once a refund of user 1 has been processed, with whatever
    action, its status page is answered 200 and shows the decided
    status with the steps submitted and under_review marked completed
    and the steps approved and disbursed not: an approved refund is not
    shown as approved.  The only step with a time is disbursed, with
    the time of the decision. *)
Theorem processed_refund_status_page {V : Type} (db : Database V)
    (clock clock' refundNo : Z) (action : string) (table : list TaxRefund)
    (r : TaxRefund) :
  In r table -> refundId r = refundNo -> refundUserId r = 1%Z ->
  int4 refundNo = true ->
  exists update,
    status_handler db clock' (Some refundNo)
      (snd (process_handler clock (Some refundNo) action table))
    = Res 200 (inl update)
    /\ refundId (refund update) = refundNo
    /\ refundStatus (refund update)
       = (if String.eqb action "approve" then "approved" else "rejected")
    /\ names_and_marks update
       = [("submitted", true); ("under_review", true);
          ("approved", false); ("disbursed", false)]
    /\ map timestamp (processingSteps update)
       = [None; None; None; Some clock].
Proof.
  intros Hin Hid Howner Hrange.
  unfold process_handler.
  rewrite StorageFacts.processTaxRefund_in_range by exact Hrange.
  cbn [snd]. unfold status_handler.
  destruct (refunds_of_user_1 db
              (map (fun r => if Z.eqb (refundId r) refundNo
                             then decided clock
                                    (if String.eqb action "approve"
                                     then "approved" else "rejected") r
                             else r) table))
    as (refunds & -> & Hrefunds).
  destruct (find (fun r => Z.eqb (refundId r) refundNo) refunds)
    as [found|] eqn:Efind.
  - apply find_some in Efind. destruct Efind as [Hfound Hfound_id].
    apply Z.eqb_eq in Hfound_id. apply Hrefunds in Hfound.
    destruct Hfound as [Hfound _].
    destruct (rows_after_process _ _ _ _ _ Hfound Hfound_id)
      as [Hstatus Hat].
    eexists. split; [reflexivity | ]. cbn [refund].
    split; [exact Hfound_id | ]. split; [exact Hstatus | ].
    unfold names_and_marks.
    cbn [processingSteps map step completed timestamp].
    rewrite Hstatus, Hat. destruct (decided_not_pending action) as [-> ->].
    split; reflexivity.
  - exfalso.
    assert (Hmine :
      In (decided clock
            (if String.eqb action "approve" then "approved" else "rejected") r)
         refunds).
    { apply Hrefunds. split; [ | exact Howner].
      apply in_map_iff. exists r. split; [ | exact Hin].
      apply Z.eqb_eq in Hid. now rewrite Hid. }
    apply (find_none _ _ Efind) in Hmine. cbn [refundId] in Hmine.
    apply Z.eqb_neq in Hmine. contradiction.
Qed.

(** X11: the status page answers 404 exactly when no refund of user 1
    has the id asked for; the refund of another user is not found, and
    neither is any refund when the id does not parse. *)
Theorem status_not_found {V : Type} (db : Database V) (clock : Z)
    (parsedId : option Z) (table : list TaxRefund) :
  status_handler db clock parsedId table = Res 404 (inr "Tax refund not found")
  <-> (forall r i, In r table -> parsedId = Some i -> refundId r = i ->
                   refundUserId r <> 1%Z).
Proof.
  unfold status_handler.
  destruct (refunds_of_user_1 db table) as (refunds & -> & Hrefunds).
  destruct (find _ refunds) as [r|] eqn:E; split.
  - discriminate.
  - intros Hnone. apply find_some in E. destruct E as [Hin Hid].
    apply Hrefunds in Hin. destruct Hin as [Hin Howner].
    destruct parsedId as [i|]; [ | discriminate]. apply Z.eqb_eq in Hid.
    elim (Hnone r i Hin eq_refl Hid Howner).
  - intros _ r i Hin -> Hid Howner.
    assert (Hmine : In r refunds) by (apply Hrefunds; now split).
    apply (find_none _ _ E) in Hmine. apply Z.eqb_neq in Hmine. contradiction.
  - reflexivity.
Qed.

(** X9: of two calls of processTaxRefund on the same id, the later one
    decides alone: the table and the returned row are those of the later
    call applied to the original table; and no call adds, removes or
    renumbers a refund.  (A call that the store answers with an error
    leaves the table as it was.) *)
Theorem last_decision_stands (clock1 clock2 : Z) (parsedId : option Z)
    (action1 action2 : string) (table : list TaxRefund) :
  processTaxRefund clock2 parsedId action2
    (table_after (processTaxRefund clock1 parsedId action1 table) table)
  = processTaxRefund clock2 parsedId action2 table
  /\ map refundId
       (table_after (processTaxRefund clock1 parsedId action1 table) table)
     = map refundId table.
Proof.
  unfold processTaxRefund.
  destruct parsedId as [refundNo|]; [ | now split].
  destruct (int4 refundNo); [ | now split].
  cbn [table_after]. split.
  - f_equal. f_equal.
    + f_equal. induction table as [|r table IH]; [reflexivity | ].
      cbn [map filter].
      destruct (Z.eqb (refundId r) refundNo) eqn:E.
      * cbn [refundId decided]. rewrite E. cbn [map]. now rewrite IH.
      * rewrite E. exact IH.
    + rewrite map_map. apply map_ext. intros r.
      destruct (Z.eqb (refundId r) refundNo) eqn:E.
      * cbn [refundId decided]. rewrite E. reflexivity.
      * rewrite E. reflexivity.
  - rewrite map_map. apply map_ext. intros r.
    destruct (Z.eqb (refundId r) refundNo); reflexivity.
Qed.

(** X10 at the pending refund 7, approved. *)
Lemma processed_refund_status_page_witness :
  exists update,
    status_handler sample_db 1700000500 (Some 7%Z)
      (snd (process_handler 1700000400 (Some 7%Z) "approve" [pending_refund 7]))
    = Res 200 (inl update)
    /\ refundId (refund update) = 7%Z
    /\ refundStatus (refund update) = "approved"
    /\ names_and_marks update
       = [("submitted", true); ("under_review", true);
          ("approved", false); ("disbursed", false)]
    /\ map timestamp (processingSteps update)
       = [None; None; None; Some 1700000400%Z].
Proof.
  exact (processed_refund_status_page sample_db 1700000400 1700000500 7
           "approve" [pending_refund 7] (pending_refund 7)
           (or_introl eq_refl) eq_refl eq_refl eq_refl).
Defined.
End RefundPageFacts.

(** ** What the payment handlers leave in the store *)

Module LedgerStoreFacts.
Import Schema Postgres Routes Ledger LedgerFacts SampleDatabase.

(** Closes the cases of a request whose response is at hand. *)
Ltac settle :=
  cbn; rewrite ?app_nil_r;
  repeat split; try reflexivity; try discriminate; auto;
  try (right; left; eexists _, _; reflexivity).

Section Facts.
Context {V : Type} {JV : JsValue V}.
Variable db : Database V.
Variable schema : TransactionObject V -> option (InsertTransaction V).

(** One request: what became of the wallet_balances table, and the
    status of the response. *)
Lemma handle_balances (r : Request V) (w : World V) :
  fst (handle db schema r w) = Value (response_of db schema r w)
  /\ (http_status (response_of db schema r w) = 200%Z
      \/ http_status (response_of db schema r w) = 400%Z
      \/ (http_status (response_of db schema r w) = 500%Z
          /\ exists env req, r = DepositReq env req))
  /\ (wallet_balances (snd (handle db schema r w)) = wallet_balances w
      \/ (exists clock b,
            wallet_balances (snd (handle db schema r w))
            = map (set_balance clock b walletAddress) (wallet_balances w))
      \/ (wallet_rows w = []
          /\ exists row,
               address row = walletAddress
               /\ wallet_balances (snd (handle db schema r w))
                  = wallet_balances w ++ [row])).
Proof.
  unfold response_of. destruct r as [env req|env req]; cbn [handle].
  - destruct (send_incomplete req) eqn:E1.
    { rewrite send_missing_parameters by exact E1. settle. }
    destruct (parseFloat (send_amount req) <=? 0)%float eqn:E2.
    { rewrite send_invalid_amount by assumption. settle. }
    destruct (Js.strict_eq (send_assetType req) "XP") eqn:E3.
    + rewrite send_xp_path by assumption. cbv zeta.
      destruct (_ <? _)%float; [settle | ].
      destruct (schema _) as [data|]; [ | settle].
      destruct (Storage.createTransaction _ _ _ _ _) as [[row table]|];
        [ | settle].
      destruct (numeric_18_8 db _) as [stored|]; settle.
    + rewrite send_other_path by assumption.
      destruct (schema _) as [data|]; [ | settle].
      destruct (Storage.createTransaction _ _ _ _ _) as [[row table]|];
        settle.
  - destruct (deposit_rejected req) eqn:E1.
    { rewrite deposit_invalid_amount by exact E1. settle. }
    rewrite deposit_path by exact E1. cbv zeta.
    assert (Hrows :
      forall stored,
        credited env req w stored = wallet_balances w
        \/ (exists clock b,
              credited env req w stored
              = map (set_balance clock b walletAddress) (wallet_balances w))
        \/ (wallet_rows w = []
            /\ exists row,
                 address row = walletAddress
                 /\ credited env req w stored = wallet_balances w ++ [row])).
    { intros stored. unfold credited.
      destruct (wallet_rows w) as [|x rows].
      - right. right. split; [reflexivity | ]. eexists.
        split; [ | reflexivity]. reflexivity.
      - right. left. eexists _, _. reflexivity. }
    assert (Hdeposit :
      exists env' req', DepositReq env req = DepositReq env' req')
      by (now exists env, req).
    destruct (numeric_18_8 db _) as [stored|].
    + destruct (schema _) as [data|];
        [ destruct (Storage.createTransaction _ _ _ _ _) as [[row table]|] | ];
        cbn [fst snd http_status wallet_balances];
        (split; [reflexivity | ]); (split; [ | apply Hrows]); auto.
    + cbn [fst snd http_status wallet_balances logged].
      split; [reflexivity | ]. split; auto.
Qed.

(** One request on a store whose balances the column holds: what
    became of the transactions table, and of both tables when the
    request is refused. *)
Lemma handle_log (r : Request V) (w : World V) :
  balances_held w ->
  transactions (snd (handle db schema r w))
  = transactions w ++ recorded (response_of db schema r w)
  /\ List.length (recorded (response_of db schema r w))
     = (if Z.eqb (http_status (response_of db schema r w)) 200 then 1 else 0)%nat
  /\ (http_status (response_of db schema r w) = 400%Z ->
      wallet_balances (snd (handle db schema r w)) = wallet_balances w).
Proof.
  intros Hheld.
  unfold response_of. destruct r as [env req|env req]; cbn [handle].
  - destruct (send_incomplete req) eqn:E1.
    { rewrite send_missing_parameters by exact E1. settle. }
    destruct (parseFloat (send_amount req) <=? 0)%float eqn:E2.
    { rewrite send_invalid_amount by assumption. settle. }
    destruct (Js.strict_eq (send_assetType req) "XP") eqn:E3.
    + rewrite send_xp_path by assumption. cbv zeta.
      destruct (_ <? _)%float eqn:E4; [settle | ].
      destruct (schema _) as [data|]; [ | settle].
      destruct (Storage.createTransaction _ _ _ _ _) as [[row table]|] eqn:Ei;
        [ | settle].
      destruct (StorageFacts.createTransaction_appends _ _ _ _ _ _ _ Ei)
        as (-> & _).
      assert (Hcurrent : holds (send_currentBalance (wallet_rows w)) = true).
      { unfold send_currentBalance.
        apply (current_balance (fun b => holds b = true));
          [reflexivity | exact Hheld]. }
      destruct (numeric_accepts db _
                  (HeldFacts.sub_holds _ _ Hcurrent E2 E4))
        as (stored & ->).
      cbn. repeat split; try reflexivity; discriminate.
    + rewrite send_other_path by assumption.
      destruct (schema _) as [data|]; [ | settle].
      destruct (Storage.createTransaction _ _ _ _ _) as [[row table]|] eqn:Ei;
        [ | settle].
      destruct (StorageFacts.createTransaction_appends _ _ _ _ _ _ _ Ei)
        as (-> & _).
      cbn. repeat split; try reflexivity; discriminate.
  - destruct (deposit_rejected req) eqn:E1.
    { rewrite deposit_invalid_amount by exact E1. settle. }
    rewrite deposit_path by exact E1. cbv zeta.
    destruct (numeric_18_8 db _) as [stored|]; [ | settle].
    destruct (schema _) as [data|]; [ | settle].
    destruct (Storage.createTransaction _ _ _ _ _) as [[row table]|] eqn:Ei;
      [ | settle].
    destruct (StorageFacts.createTransaction_appends _ _ _ _ _ _ _ Ei)
      as (-> & _).
    cbn. repeat split; try reflexivity; discriminate.
Qed.

(** X12: on a store whose balances the column holds, as it does the
    balances of every store that the handlers have written, the
    transactions table only grows, by the transactions the responses
    carry, in the order of the requests: one for each request answered
    200 and none for any other; and the column holds the balances
    afterwards. *)
Theorem transactions_only_appended (rs : list (Request V)) (w : World V) :
  balances_held w ->
  transactions (snd (run db schema rs w))
  = transactions w ++ List.concat (map recorded (fst (run db schema rs w)))
  /\ List.length (transactions (snd (run db schema rs w)))
     = (List.length (transactions w)
        + List.length (filter (fun resp => Z.eqb (http_status resp) 200)
                         (fst (run db schema rs w))))%nat
  /\ balances_held (snd (run db schema rs w)).
Proof.
  revert w. induction rs as [|r rs IH]; intros w Hheld.
  - cbn. rewrite app_nil_r. split; [reflexivity | ]. split; [lia | exact Hheld].
  - rewrite run_cons. cbn [fst snd map List.concat filter].
    destruct (IH (snd (handle db schema r w)) (handle_held db schema r w Hheld))
      as (Hlog & Hcount & Hafter).
    destruct (handle_log r w Hheld) as (Hone & Hlen & _).
    split; [ | split; [ | exact Hafter]].
    + rewrite Hlog, Hone, <- app_assoc. reflexivity.
    + rewrite Hcount, Hone, length_app, Hlen.
      destruct (Z.eqb (http_status (response_of db schema r w)) 200);
        cbn [List.length]; lia.
Qed.

(** X13: on a store whose balances the column holds, a request answered
    400 leaves the wallet_balances table and the transactions table as
    they were. *)
Theorem refused_request_changes_nothing (r : Request V) (w : World V) :
  balances_held w ->
  http_status (response_of db schema r w) = 400%Z ->
  wallet_balances (snd (handle db schema r w)) = wallet_balances w
  /\ transactions (snd (handle db schema r w)) = transactions w.
Proof.
  intros Hheld Hrefused.
  destruct (handle_log r w Hheld) as (Hone & Hlen & Hsame).
  split; [now apply Hsame | ].
  rewrite Hrefused in Hlen. cbn in Hlen.
  destruct (recorded (response_of db schema r w)); [ | discriminate].
  now rewrite Hone, app_nil_r.
Qed.


Lemma other_rows_set clock b (rows : list WalletBalance) :
  filter (fun r => negb (is_address walletAddress r))
    (map (set_balance clock b walletAddress) rows)
  = filter (fun r => negb (is_address walletAddress r)) rows.
Proof.
  induction rows as [|r rows IH]; [reflexivity | ].
  cbn [map filter]. rewrite is_address_set.
  destruct (is_address walletAddress r) eqn:E; cbn [negb]; [exact IH | ].
  rewrite IH. f_equal. unfold set_balance. now rewrite E.
Qed.

Lemma handle_other_rows (r : Request V) (w : World V) :
  other_rows (snd (handle db schema r w)) = other_rows w.
Proof.
  unfold other_rows.
  destruct (handle_balances r w)
    as (_ & _ & [-> | [(clock & b & ->) | (_ & row & Hrow & ->)]]).
  - reflexivity.
  - apply other_rows_set.
  - rewrite filter_app. cbn [filter]. unfold is_address. rewrite Hrow.
    rewrite String.eqb_refl. cbn. apply app_nil_r.
Qed.

(** X15: whatever requests are applied, the rows of every other address
    stay exactly as they were. *)
Theorem other_addresses_untouched (rs : list (Request V)) (w : World V) :
  other_rows (snd (run db schema rs w)) = other_rows w.
Proof.
  revert w. induction rs as [|r rs IH]; intros w; [reflexivity | ].
  rewrite run_cons. cbn [snd]. rewrite IH. apply handle_other_rows.
Qed.

Lemma handle_row_count (r : Request V) (w : World V) :
  (wallet_rows w <> [] ->
   List.length (wallet_rows (snd (handle db schema r w)))
   = List.length (wallet_rows w))
  /\ (wallet_rows w = [] ->
      List.length (wallet_rows (snd (handle db schema r w))) <= 1)%nat.
Proof.
  unfold wallet_rows.
  destruct (handle_balances r w)
    as (_ & _ & [-> | [(clock & b & ->) | (Hnone & row & Hrow & ->)]]).
  - split; [reflexivity | ]. intros ->. cbn. lia.
  - rewrite filter_set_balance, length_map. split; [reflexivity | ].
    intros ->. cbn. lia.
  - unfold wallet_rows in Hnone. rewrite filter_app, Hnone. cbn [filter app].
    split; [intros Hrows; now elim Hrows | ].
    intros _. destruct (is_address walletAddress row); cbn; lia.
Qed.

(** X16: the handlers never delete a wallet row and never create a second
    one: a wallet that has rows keeps their number, and a wallet that
    has none ends with at most one. *)
Theorem wallet_row_count (rs : list (Request V)) (w : World V) :
  (wallet_rows w <> [] ->
   List.length (wallet_rows (snd (run db schema rs w)))
   = List.length (wallet_rows w))
  /\ (wallet_rows w = [] ->
      List.length (wallet_rows (snd (run db schema rs w))) <= 1)%nat.
Proof.
  revert w. induction rs as [|r rs IH]; intros w.
  - cbn [run snd]. split; [reflexivity | ]. intros ->. cbn. lia.
  - rewrite run_cons. cbn [snd].
    destruct (IH (snd (handle db schema r w))) as [Hsome Hnone].
    destruct (handle_row_count r w) as [Hkeep Hfirst].
    split.
    + intros Hrows. pose proof (Hkeep Hrows) as Hlen.
      rewrite Hsome; [exact Hlen | ].
      intros Hempty. rewrite Hempty in Hlen.
      destruct (wallet_rows w); [now elim Hrows | discriminate].
    + intros Hrows. specialize (Hfirst Hrows).
      destruct (wallet_rows (snd (handle db schema r w))) as [|x rows] eqn:E.
      * now apply Hnone.
      * rewrite Hsome by discriminate. exact Hfirst.
Qed.

Lemma set_balance_without_row clock b (rows : list WalletBalance) :
  filter (is_address walletAddress) rows = [] ->
  map (set_balance clock b walletAddress) rows = rows.
Proof.
  induction rows as [|r rows IH]; [reflexivity | ].
  cbn [filter map]. unfold set_balance at 1.
  destruct (is_address walletAddress r); [discriminate | ].
  intros Hnone. now rewrite IH.
Qed.

(** One send on a store without a wallet row. *)
Lemma send_without_row (env : Env) (req : SendRequest V) (w : World V) :
  stored_balance w = None ->
  wallet_balances (snd (send db schema env req w)) = wallet_balances w
  /\ reports_default (response_of db schema (SendReq env req) w).
Proof.
  intros Hnone. pose proof (no_stored_balance w Hnone) as Hrows.
  unfold response_of, reports_default. cbn [handle].
  destruct (send_incomplete req) eqn:E1.
  { rewrite send_missing_parameters by exact E1. now split. }
  destruct (parseFloat (send_amount req) <=? 0)%float eqn:E2.
  { rewrite send_invalid_amount by assumption. now split. }
  destruct (Js.strict_eq (send_assetType req) "XP") eqn:E3.
  - rewrite send_xp_path by assumption. cbv zeta. rewrite Hrows.
    cbn [send_currentBalance].
    destruct (_ <? _)%float; [now split | ].
    destruct (schema _) as [data|]; [ | now split].
    destruct (Storage.createTransaction _ _ _ _ _) as [[row table]|];
      [ | now split].
    destruct (numeric_18_8 db _) as [stored|]; [ | now split].
    cbn [fst snd wallet_balances]. split; [ | reflexivity].
    now apply set_balance_without_row.
  - rewrite send_other_path by assumption.
    destruct (schema _) as [data|]; [ | now split].
    destruct (Storage.createTransaction _ _ _ _ _) as [[row table]|];
      now split.
Qed.

Lemma sends_without_row (rs : list (Request V)) (w : World V) :
  stored_balance w = None ->
  Forall is_send rs ->
  wallet_balances (snd (run db schema rs w)) = wallet_balances w
  /\ Forall reports_default (fst (run db schema rs w)).
Proof.
  revert w. induction rs as [|r rs IH]; intros w Hnone Hsends.
  - cbn. now split.
  - inversion Hsends as [|? ? Hr Hrs]; subst.
    destruct r as [env req|env req]; [ | contradiction].
    rewrite run_cons. cbn [fst snd].
    destruct (send_without_row env req w Hnone) as [Hsame Hreport].
    destruct (IH (snd (handle db schema (SendReq env req) w))) as [Hrest Hall].
    { unfold stored_balance, wallet_rows in *. cbn [handle].
      now rewrite Hsame. }
    { exact Hrs. }
    split.
    + rewrite Hrest. exact Hsame.
    + constructor; assumption.
Qed.

(** X17: while the wallet has no row, the sends never draw the default
    balance down: over any sequence of sends the wallet_balances table
    stays as it was and every balance that a response reports is 1.0;
    and after the sequence a further complete XP send of a positive
    amount of at most 1, whose record the schema and the INSERT accept,
    is answered 200 again, from the balance 1.0. *)
Theorem sends_without_row_never_run_out (rs : list (Request V)) (w : World V)
    (env : Env) (req : SendRequest V) (data : InsertTransaction V)
    (row : Transaction V) (table : list (Transaction V)) :
  stored_balance w = None ->
  Forall is_send rs ->
  send_incomplete req = false ->
  (parseFloat (send_amount req) <=? 0)%float = false ->
  Js.strict_eq (send_assetType req) "XP" = true ->
  (1 <? parseFloat (send_amount req))%float = false ->
  schema (send_transactionData env req) = Some data ->
  Storage.createTransaction db (serial env) (now env) data
    (transactions (snd (run db schema rs w)))
  = Some (row, table) ->
  wallet_balances (snd (run db schema rs w)) = wallet_balances w
  /\ Forall reports_default (fst (run db schema rs w))
  /\ response_of db schema (SendReq env req) (snd (run db schema rs w))
     = Res 200
         (Completed row ("0x" ++ randomHex env) 1
            (1 - parseFloat (send_amount req))
            "Withdrawal completed successfully - balance updated")
  /\ wallet_balances
       (snd (send db schema env req (snd (run db schema rs w))))
     = wallet_balances w.
Proof.
  intros Hnone Hsends Hcomplete Hamount Hxp Henough Hschema Hinsert.
  destruct (sends_without_row rs w Hnone Hsends) as [Hsame Hall].
  assert (Hafter : stored_balance (snd (run db schema rs w)) = None).
  { unfold stored_balance, wallet_rows in *. now rewrite Hsame. }
  split; [exact Hsame | ]. split; [exact Hall | ].
  destruct (send_without_row env req _ Hafter) as [Hkeep _].
  split; [ | now rewrite Hkeep].
  unfold response_of. cbn [handle].
  rewrite send_xp_path by assumption. cbv zeta.
  rewrite (no_stored_balance _ Hafter). cbn [send_currentBalance].
  rewrite Henough, Hschema, Hinsert.
  assert (Hheld : holds 1 = true) by reflexivity.
  destruct (numeric_accepts db _
              (HeldFacts.sub_holds _ _ Hheld Hamount Henough))
    as (stored & ->).
  reflexivity.
Qed.
End Facts.

Lemma sample_balance_held : balances_held (@world_with_balance JsonField 3).
Proof.
  unfold balances_held. cbn. constructor; [reflexivity | constructor].
Qed.

(** X12 at a deposit of 2 XP, a send of 4 XP and a refused send of
    5 XP on a store that holds 3 XP. *)
Lemma transactions_only_appended_witness :
  let w := @world_with_balance JsonField 3 in
  let rs := [DepositReq (sample_env_at 1) (deposit_xp 2);
             SendReq (sample_env_at 2) (send_xp 4);
             SendReq (sample_env_at 3) (send_xp 5)] in
  balances_held w
  /\ map (@http_status _) (fst (run sample_db sample_schema rs w))
     = [200; 200; 400]%Z
  /\ List.length (transactions (snd (run sample_db sample_schema rs w))) = 2%nat
  /\ balances_held (snd (run sample_db sample_schema rs w)).
Proof.
  cbv zeta.
  destruct (transactions_only_appended sample_db sample_schema
              [DepositReq (sample_env_at 1) (deposit_xp 2);
               SendReq (sample_env_at 2) (send_xp 4);
               SendReq (sample_env_at 3) (send_xp 5)]
              (world_with_balance 3) sample_balance_held)
    as (_ & Hcount & Hheld).
  split; [exact sample_balance_held | ].
  split; [vm_compute; reflexivity | ].
  split; [rewrite Hcount; vm_compute; reflexivity | exact Hheld].
Defined.

(** X13 at a deposit of -1 XP on a store that holds 3 XP. *)
Lemma refused_request_changes_nothing_witness :
  let w := @world_with_balance JsonField 3 in
  let r := DepositReq sample_env (deposit_xp (-1)) in
  balances_held w
  /\ http_status (response_of sample_db sample_schema r w) = 400%Z
  /\ wallet_balances (snd (handle sample_db sample_schema r w))
     = wallet_balances w
  /\ transactions (snd (handle sample_db sample_schema r w)) = transactions w.
Proof.
  cbv zeta. split; [exact sample_balance_held | ].
  split; [vm_compute; reflexivity | ].
  apply (refused_request_changes_nothing sample_db sample_schema
           (DepositReq sample_env (deposit_xp (-1))) (world_with_balance 3)
           sample_balance_held).
  vm_compute. reflexivity.
Defined.


(** X17 on the empty store: after two sends of 1 XP, each under a hash
    of its own, a third is answered 200 from the balance 1, and no row
    is written. *)
Lemma sends_without_row_never_run_out_witness :
  let rs := [SendReq (sample_env_at 1) (send_xp 1);
             SendReq (sample_env_at 2) (send_xp 1)] in
  let w := snd (run sample_db sample_schema rs (@empty_world JsonField)) in
  map (@http_status _) (fst (run sample_db sample_schema rs empty_world))
  = [200; 200]%Z
  /\ wallet_balances w = []
  /\ (exists row,
        response_of sample_db sample_schema
          (SendReq (sample_env_at 3) (send_xp 1)) w
        = Res 200
            (Completed row ("0x" ++ randomHex (sample_env_at 3)) 1 (1 - 1)
               "Withdrawal completed successfully - balance updated"))
  /\ wallet_balances
       (snd (send sample_db sample_schema (sample_env_at 3) (send_xp 1) w))
     = [].
Proof.
  cbv zeta. split; [vm_compute; reflexivity | ].
  pose (rs := [SendReq (sample_env_at 1) (send_xp 1);
               SendReq (sample_env_at 2) (send_xp 1)]).
  pose (data :=
    {| new_userId := 1%Z;
       new_fromAddress := walletAddress;
       new_toAddress := "0xfeed"%string;
       new_assetType := "XP"%string;
       new_amount := AsString (Num 1);
       new_fee := None;
       new_txHash := ("0x" ++ randomHex (sample_env_at 3))%string;
       new_blockNumber := None;
       new_status := Some "completed"%string;
       new_transactionType := "send"%string;
       new_merchantInfo := None |}).
  destruct (Storage.createTransaction sample_db (serial (sample_env_at 3))
              (now (sample_env_at 3)) data
              (transactions
                 (snd (run sample_db sample_schema rs empty_world))))
    as [[row table]|] eqn:Einsert; [ | vm_compute in Einsert; discriminate].
  destruct (sends_without_row_never_run_out sample_db sample_schema rs
              empty_world (sample_env_at 3) (send_xp 1) data row table)
    as (Hsame & _ & Hthird & Hkeep);
    try reflexivity; [repeat constructor | exact Einsert | ].
  split; [exact Hsame | ]. split; [ | exact Hkeep].
  exists row. exact Hthird.
Defined.
End LedgerStoreFacts.

(** ** The wallet page *)

Module WalletPageFacts.
Import Schema Postgres Routes Auth WalletView LedgerFacts SampleDatabase.
Local Open Scope string_scope.

Section Page.
Context {V : Type} {JV : JsValue V}.
Variable db : Database V.
Variable schema : TransactionObject V -> option (InsertTransaction V).
Variable randomHash : Transaction V -> string.

Lemma or_else_not_empty (a b : string) : b <> "" -> or_else a b <> "".
Proof.
  intros Hb. unfold or_else.
  destruct (String.eqb_spec a ""); assumption.
Qed.

(** The transactions of user 1, as the wallet page gets them. *)
Lemma transactions_of_user_1 (table : list (Transaction V)) :
  Storage.getTransactionsByUserId db 1 table
  = Some (scan db (filter (fun t => Z.eqb (userId t) 1) table)).
Proof. reflexivity. Qed.

(** X18: the wallet page lists the transactions of user 1, one entry for
    each, in the order the database returns them; no entry shows the
    status completed (it is shown as confirmed), and every entry has a
    type. *)
Theorem wallet_page_entries (table : list (Transaction V)) :
  exists rows,
    Storage.getTransactionsByUserId db 1 table = Some rows
    /\ Permutation rows (filter (fun t => Z.eqb (userId t) 1) table)
    /\ wallet_transactions db randomHash table
       = Res 200 (inl (map (walletTransaction randomHash) rows))
    /\ map view_id (map (walletTransaction randomHash) rows) = map (@id V) rows
    /\ Forall (fun entry =>
                 view_status entry <> "completed"
                 /\ view_type entry <> "")
         (map (walletTransaction randomHash) rows)
    /\ Forall (fun tx =>
                 status tx = "completed" ->
                 view_status (walletTransaction randomHash tx) = "confirmed")
         table.
Proof.
  unfold wallet_transactions. rewrite transactions_of_user_1.
  eexists. split; [reflexivity | ].
  split; [apply scan_permutation | ]. split; [reflexivity | ].
  split; [ | split].
  - rewrite map_map. reflexivity.
  - apply Forall_map. apply Forall_forall. intros tx _.
    cbn [walletTransaction view_status view_type]. split.
    + destruct (String.eqb_spec (status tx) "completed") as [_|Hne];
        [discriminate | exact Hne].
    + apply or_else_not_empty. discriminate.
  - apply Forall_forall. intros tx _ Hcompleted.
    cbn [walletTransaction view_status]. rewrite Hcompleted. reflexivity.
Qed.

End Page.


End WalletPageFacts.
